(** * Code for IBM i: a shallow embedding of the extension's core logic

    The development follows the TypeScript sources module by module:

    - [Colour]      : src/languages/colour.ts
    - [ConfigFile]  : src/api/config/configFile.ts
    - [Uris]        : the URI helpers ([areEquivalentUris], ...)
    - [Instantiate] : src/instantiate.ts ([disconnect], [onDisconnected])
    - [Debug]       : the debug certificate bootstrap commands
    - [UriHandler]  : src/uri/index.ts (the [/connect] handler)

    Pure functions are Rocq functions.  Code that talks to the editor or to
    the remote system is written in state-passing style over a record that
    holds exactly the part of the world the function reads or writes. *)

From Stdlib Require Import ZArith NArith Ascii String Bool Lia.
From stdpp Require Import base decidable option list strings pretty gmap.

Set Warnings "-register-all".

Local Open Scope N_scope.

(** ** src/languages/colour.ts *)

Module Colour.

(** A JavaScript string is a sequence of UTF-16 code units; [charCodeAt]
    reads one of them. *)
Abbreviation jsstring := (list N).

Definition charCodeAt (content : jsstring) (i : nat) : option N :=
  content !! i.

Definition NEW_LINE_NUMBERS : list N := [10; 13].

Definition SPACE : jsstring := [32].

(** [replaceCharCode(charCode)] *)
Definition replaceCharCode (charCode : N) : bool :=
  ((charCode <? 32) && negb (bool_decide (charCode ∈ NEW_LINE_NUMBERS)))
  || ((128 <=? charCode) && (charCode <=? 157)).

(** [content.split(``)]: one single-unit string per code unit. *)
Definition split (content : jsstring) : list jsstring :=
  (λ c, [c]) <$> content.

(** [chars.join(``)] *)
Definition join (chars : list jsstring) : jsstring :=
  concat chars.

(** The body of the [for] loop at index [i].  [charCodeAt] outside the
    string is [NaN], which fails both comparisons of [replaceCharCode]. *)
Definition loop_body (content : jsstring) (chars : list jsstring) (i : nat)
  : list jsstring :=
  match charCodeAt content i with
  | Some code => if replaceCharCode code then <[i := SPACE]> chars else chars
  | None => chars
  end.

(** [for (let i = 0; i < content.length; i++) ...] *)
Definition loop (content : jsstring) (chars : list jsstring) : list jsstring :=
  foldl (loop_body content) chars (seq 0 (length content)).

(** [replaceInvalidCharacters(content)] *)
Definition replaceInvalidCharacters (content : jsstring) : jsstring :=
  join (loop content (split content)).

(** A code unit that is replaced: below 32 and neither line feed nor
    carriage return, or from 128 to 157. *)
Definition invalid_code (c : N) : Prop :=
  (c < 32 ∧ c ≠ 10 ∧ c ≠ 13) ∨ (128 ≤ c ∧ c ≤ 157).

Definition fix_code (c : N) : N := if replaceCharCode c then 32 else c.

End Colour.

(** ** src/api/config/configFile.ts *)

Module ConfigFile.

(** *** JavaScript values read from configuration files

    [JSON.parse] yields null, booleans, numbers, strings, arrays and
    objects.  An object keeps its fields in property enumeration order (the
    order [for ... in] visits them).  Numbers are integers here: the code
    only ever tests a number for being zero. *)
Inductive json : Type :=
| JNull
| JBool (b : bool)
| JNum (n : Z)
| JStr (s : string)
| JArr (items : list json)
| JObj (fields : list (string * json)).

(** [any | undefined]: [None] is [undefined]. *)
Abbreviation any := (option json).

(** JavaScript truthiness, as used by [if (x)], [x && y] and [x || y]. *)
Definition truthy (v : any) : bool :=
  match v with
  | None | Some JNull => false
  | Some (JBool b) => b
  | Some (JNum n) => negb (n =? 0)%Z
  | Some (JStr s) => negb (bool_decide (s = EmptyString))
  | Some (JArr _) | Some (JObj _) => true
  end.

(** [a || b] *)
Definition js_or (a b : any) : any := if truthy a then a else b.

(** [Array.isArray(v)] *)
Definition isArray (v : any) : bool :=
  match v with Some (JArr _) => true | _ => false end.

Fixpoint assoc (key : string) (fields : list (string * json)) : any :=
  match fields with
  | [] => None
  | (k, v) :: rest => if decide (k = key) then Some v else assoc key rest
  end.

(** The array index a property key denotes, if it is the canonical decimal
    spelling of an index below [len]. *)
Definition index_of_key (len : nat) (key : string) : option nat :=
  snd <$> list_find (λ i, pretty i = key) (seq 0 len).

Definition char_string (c : ascii) : json := JStr (String c EmptyString).

(** [v[key]] for the properties that hold a JSON value: the fields of an
    object, the elements of an array, the characters of a string.  Any other
    property ([length], inherited methods) is not an array, which is all the
    code asks of it, and reads as [undefined] here. *)
Definition getProp (v : any) (key : string) : any :=
  match v with
  | Some (JObj fields) => assoc key fields
  | Some (JArr items) => index_of_key (length items) key ≫= (items !!.)
  | Some (JStr s) =>
      index_of_key (String.length s) key
        ≫= λ i, char_string <$> list_ascii_of_string s !! i
  | _ => None
  end.

(** The keys [for (const key in v)] visits. *)
Definition keys (v : any) : list string :=
  match v with
  | Some (JObj fields) => fields.*1
  | Some (JArr items) => pretty <$> seq 0 (length items)
  | Some (JStr s) => pretty <$> seq 0 (String.length s)
  | _ => []
  end.

(** The elements of [...v]; [None] when [v] is not iterable (a TypeError). *)
Definition spread (v : any) : option (list json) :=
  match v with
  | Some (JArr items) => Some items
  | Some (JStr s) => Some (char_string <$> list_ascii_of_string s)
  | _ => None
  end.

(** *** Exceptions *)

Inductive exn := ValidationError | TypeError.

Inductive outcome (A : Type) : Type :=
| Returned (a : A)
| Thrown (e : exn).
Arguments Returned {A} a.
Arguments Thrown {A} e.

(** *** The class *)

Inductive ConfigResult := not_loaded | no_exist | failed_to_parse | ok.

Record LoadResult := { workspace : ConfigResult; server : ConfigResult }.

(** A call of [validateAndCleanInPlace(loadedConfig)] either throws, or
    returns [result] after leaving the object it was given as [inPlace]. *)
Inductive validation :=
| Rejects
| Cleans (inPlace : json) (result : any).

(** The argument after the call: only an object or an array can have been
    changed through the reference. *)
Definition after_validation (arg : any) (inPlace : json) : any :=
  match arg with
  | Some (JArr _) | Some (JObj _) => Some inPlace
  | _ => arg
  end.

(** [connection.content]: the remote system, as seen through the two calls
    [loadFromServer] makes. *)
Record IBMiContent := {
  testStreamFile : string → string → bool;
  downloadStreamfileRaw : string → string
}.

Record ConfigFile := {
  state : LoadResult;
  basename : string;
  workspaceFile : string;
  serverFile : string;
  serverData : any;
  hasServerFile : bool;
  mergeArrays : bool;
  validateAndCleanInPlace : option (any → validation)
}.

Definition WORKSPACE_ROOT : string := ".vscode".
Definition SERVER_ROOT : string := "/etc/.vscode".

(** [new ConfigFile(connection, configId)], for a [configId] that is a plain
    file name ([path.join] then only inserts the separator).  The
    connection is the handle to the remote system; the functions that use it
    take the remote system as it is when they are called. *)
Definition new (configId : string) : ConfigFile :=
  let basename := configId +:+ ".json" in
  {| state := {| server := not_loaded; workspace := not_loaded |};
     basename := basename;
     workspaceFile := WORKSPACE_ROOT +:+ "/" +:+ basename;
     serverFile := SERVER_ROOT +:+ "/" +:+ basename;
     serverData := None;
     hasServerFile := false;
     mergeArrays := false;
     validateAndCleanInPlace := None |}.

(** [this.state.server = r], [this.state.workspace = r],
    [this.serverData = d] and the public fields. *)
Definition set_state_server (r : ConfigResult) (this : ConfigFile) : ConfigFile :=
  {| state := {| workspace := workspace (state this); server := r |};
     basename := basename this; workspaceFile := workspaceFile this;
     serverFile := serverFile this; serverData := serverData this;
     hasServerFile := hasServerFile this; mergeArrays := mergeArrays this;
     validateAndCleanInPlace := validateAndCleanInPlace this |}.

Definition set_state_workspace (r : ConfigResult) (this : ConfigFile) : ConfigFile :=
  {| state := {| workspace := r; server := server (state this) |};
     basename := basename this; workspaceFile := workspaceFile this;
     serverFile := serverFile this; serverData := serverData this;
     hasServerFile := hasServerFile this; mergeArrays := mergeArrays this;
     validateAndCleanInPlace := validateAndCleanInPlace this |}.

Definition set_serverData (d : any) (this : ConfigFile) : ConfigFile :=
  {| state := state this;
     basename := basename this; workspaceFile := workspaceFile this;
     serverFile := serverFile this; serverData := d;
     hasServerFile := hasServerFile this; mergeArrays := mergeArrays this;
     validateAndCleanInPlace := validateAndCleanInPlace this |}.

Definition set_hasServerFile (b : bool) (this : ConfigFile) : ConfigFile :=
  {| state := state this;
     basename := basename this; workspaceFile := workspaceFile this;
     serverFile := serverFile this; serverData := serverData this;
     hasServerFile := b; mergeArrays := mergeArrays this;
     validateAndCleanInPlace := validateAndCleanInPlace this |}.

Definition set_mergeArrays (b : bool) (this : ConfigFile) : ConfigFile :=
  {| state := state this;
     basename := basename this; workspaceFile := workspaceFile this;
     serverFile := serverFile this; serverData := serverData this;
     hasServerFile := hasServerFile this; mergeArrays := b;
     validateAndCleanInPlace := validateAndCleanInPlace this |}.

Definition set_validateAndCleanInPlace (v : option (any → validation))
    (this : ConfigFile) : ConfigFile :=
  {| state := state this;
     basename := basename this; workspaceFile := workspaceFile this;
     serverFile := serverFile this; serverData := serverData this;
     hasServerFile := hasServerFile this; mergeArrays := mergeArrays this;
     validateAndCleanInPlace := v |}.

(** The part of the [vscode.workspace] API that [get] calls. *)
Abbreviation WorkspaceFolder := string.
Abbreviation Uri := string.

Record VSCodeWorkspace := {
  workspaceFolders : option (list WorkspaceFolder);
  (** the files matching a [RelativePattern(folder, pattern)] *)
  findFiles : WorkspaceFolder → string → list Uri;
  (** [workspace.fs.readFile(file)], decoded by [toString()] *)
  readFile : Uri → string
}.

Section WithJSON.

(** [JSON.parse(text)]; [None] when it throws a SyntaxError. *)
Variable JSON_parse : string → option json.

(** The [try]/[catch] around the server body (lines 42-47): the parsed
    config and the object with its state updated. *)
Definition parse_server_body (body : string) (this : ConfigFile)
  : any * ConfigFile :=
  match JSON_parse body with
  | Some v => (Some v, set_state_server ok this)
  | None => (None, set_state_server failed_to_parse this)
  end.

(** [loadFromServer()]: the object after the call and how the call ended. *)
Definition loadFromServer (content : IBMiContent) (this : ConfigFile)
  : ConfigFile * outcome unit :=
  if hasServerFile this then
    let this := set_state_server no_exist this in
    let isAvailable := testStreamFile content (serverFile this) "r" in
    let '(serverConfig, this) :=
      if isAvailable then
        let body := downloadStreamfileRaw content (serverFile this) in
        parse_server_body body this
      else (None, this) in
    match validateAndCleanInPlace this with
    | Some validate =>
        match validate serverConfig with
        | Rejects => (this, Thrown ValidationError)
        | Cleans inPlace _ =>
            (set_serverData (after_validation serverConfig inPlace) this,
             Returned ())
        end
    | None => (set_serverData serverConfig this, Returned ())
    end
  else (this, Returned ()).

(** One turn of [for (const file of configFiles)] (lines 71-79). *)
Definition read_config_file (vscode : VSCodeWorkspace)
    (acc : any * ConfigFile) (file : Uri) : any * ConfigFile :=
  let '(workspaceConfig, this) := acc in
  let content := readFile vscode file in
  match JSON_parse content with
  | Some v => (Some v, set_state_workspace ok this)
  | None => (workspaceConfig, set_state_server failed_to_parse this)
  end.

(** Lines 65-80: the search of the workspace folder. *)
Definition load_workspace (vscode : VSCodeWorkspace)
    (currentWorkspace : option WorkspaceFolder) (this : ConfigFile)
  : any * ConfigFile :=
  match workspaceFolders vscode, currentWorkspace with
  | Some _, Some folder =>
      let configFiles :=
        take 1 (findFiles vscode folder ("**/" +:+ workspaceFile this)) in
      let this := set_state_server no_exist this in
      foldl (read_config_file vscode) (None, this) configFiles
  | _, _ => (None, this)
  end.

(** One turn of [for (const key in resultingConfig)] (lines 90-94).  The
    keys are those of the workspace document; the test reads the current
    [resultingConfig], the assignment replaces it. *)
Definition merge_key (workspaceConfig serverData : any)
    (acc : outcome any) (key : string) : outcome any :=
  match acc with
  | Thrown e => Thrown e
  | Returned resultingConfig =>
      if isArray (getProp resultingConfig key)
         && isArray (getProp serverData key)
      then
        match spread (getProp workspaceConfig key),
              spread (getProp serverData key) with
        | Some ws, Some srv => Returned (Some (JArr (ws ++ srv)))
        | _, _ => Thrown TypeError
        end
      else Returned resultingConfig
  end.

(** Lines 86-99. *)
Definition combine (this : ConfigFile) (workspaceConfig : any) : outcome any :=
  if mergeArrays this && truthy workspaceConfig && truthy (serverData this)
  then
    foldl (merge_key workspaceConfig (serverData this))
          (Returned workspaceConfig) (keys workspaceConfig)
  else
    Returned (js_or workspaceConfig (serverData this)).

(** Lines 102-107. *)
Definition validate_result (this : ConfigFile) (resultingConfig : any)
  : outcome any :=
  match validateAndCleanInPlace this with
  | Some validate =>
      match validate resultingConfig with
      | Rejects => Thrown ValidationError
      | Cleans _ result => Returned result
      end
  | None => Returned resultingConfig
  end.

(** [get(currentWorkspace)]: the object after the call and the value the
    promise resolves to, or the exception it rejects with.  This is the call
    during which no other code writes to the object and both [findFiles] and
    [readFile] resolve; [ConfigFileAsync.get] follows the call through its
    two awaits and agrees with this one when nothing happens in between. *)
Definition get (vscode : VSCodeWorkspace)
    (currentWorkspace : option WorkspaceFolder) (this : ConfigFile)
  : ConfigFile * outcome any :=
  if truthy (serverData this) then (this, Returned (serverData this))
  else
    let '(workspaceConfig, this) := load_workspace vscode currentWorkspace this in
    match workspaceConfig, serverData this with
    | None, None => (this, Returned None)
    | _, _ =>
        match combine this workspaceConfig with
        | Thrown e => (this, Thrown e)
        | Returned resultingConfig =>
            (this, validate_result this resultingConfig)
        end
    end.

End WithJSON.

(** Does the installed validator throw when handed [undefined]? *)
Definition rejects_undefined (this : ConfigFile) : bool :=
  match validateAndCleanInPlace this with
  | Some validate =>
      match validate None with Rejects => true | Cleans _ _ => false end
  | None => false
  end.

(** *** The statements of the specification that the code does not meet

    "On parse failure [loadFromServer] records [failed_to_parse] and leaves
    prior cached data untouched." *)
Definition keeps_cache_on_parse_failure (JSON_parse : string → option json)
    (content : IBMiContent) (this : ConfigFile) : Prop :=
  hasServerFile this = true →
  testStreamFile content (serverFile this) "r" = true →
  JSON_parse (downloadStreamfileRaw content (serverFile this)) = None →
  let this' := (loadFromServer JSON_parse content this).1 in
  server (state this') = failed_to_parse ∧ serverData this' = serverData this.

(** [reset()] *)
Definition reset (this : ConfigFile) : ConfigFile := set_serverData None this.

(** [getState()] *)
Definition getState (this : ConfigFile) : LoadResult := state this.

End ConfigFile.

(** ** An executable reading of [JSON.parse]

    The functions of [ConfigFile] take [JSON.parse] as a parameter, so that
    what is proved of them holds of the real parser.  To run them on concrete
    files, [parseJSON] reads the JSON texts built from objects, arrays,
    strings without escapes, integers, [true], [false] and [null], and fails
    on everything else.  It is no [JSON.parse]: fractions, exponents and
    escapes are refused, a key given twice is kept twice, integer-like keys
    are not moved to the front and large integers are not rounded.  The
    concrete files below stay clear of all that: on them the two parsers
    agree. *)

Module MiniJSON.
Import ConfigFile.

Local Open Scope char_scope.

Definition quote : ascii := "034".

(** [q "a"] is the three-character text: quote, a, quote. *)
Definition q (s : string) : string :=
  String quote (s +:+ String quote EmptyString).

Definition is_ws (c : ascii) : bool :=
  (c =? " ") || (c =? "009") || (c =? "010") || (c =? "013").

Fixpoint skip_ws (s : string) : string :=
  match s with
  | String c r => if is_ws c then skip_ws r else s
  | EmptyString => EmptyString
  end.

Fixpoint strip_prefix (p s : string) : option string :=
  match p, s with
  | EmptyString, _ => Some s
  | String a p', String b s' => if (a =? b) then strip_prefix p' s' else None
  | String _ _, EmptyString => None
  end.

Definition digit (c : ascii) : option Z :=
  let n := N_of_ascii c in
  if (48 <=? n)%N && (n <=? 57)%N then Some (Z.of_N (n - 48)) else None.

Fixpoint parse_digits (acc : Z) (s : string) : Z * string :=
  match s with
  | String c r =>
      match digit c with
      | Some d => parse_digits (10 * acc + d)%Z r
      | None => (acc, s)
      end
  | EmptyString => (acc, s)
  end.

(** An unsigned integer without superfluous leading zero. *)
Definition parse_nat (s : string) : option (Z * string) :=
  match s with
  | String c r =>
      match digit c with
      | Some 0%Z =>
          match r with
          | String c' _ => if digit c' is Some _ then None else Some (0%Z, r)
          | EmptyString => Some (0%Z, r)
          end
      | Some d => Some (parse_digits d r)
      | None => None
      end
  | EmptyString => None
  end.

(** The characters of a string literal after its opening quote. *)
Fixpoint parse_chars (s : string) : option (string * string) :=
  match s with
  | EmptyString => None
  | String c r =>
      if c =? quote then Some (EmptyString, r)
      else if (c =? "\") || (N_of_ascii c <? 32)%N then None
      else '(t, r') ← parse_chars r; Some (String c t, r')
  end.

Fixpoint parse_value (fuel : nat) (s : string) {struct fuel}
  : option (json * string) :=
  match fuel with
  | O => None
  | S fuel =>
      match skip_ws s with
      | EmptyString => None
      | String c r as s' =>
          if c =? quote then '(t, r') ← parse_chars r; Some (JStr t, r')
          else if c =? "[" then
            match skip_ws r with
            | String "]" r' => Some (JArr [], r')
            | _ => '(vs, r') ← parse_elements fuel r; Some (JArr vs, r')
            end
          else if c =? "{" then
            match skip_ws r with
            | String "}" r' => Some (JObj [], r')
            | _ => '(fs, r') ← parse_members fuel r; Some (JObj fs, r')
            end
          else if c =? "-" then
            '(n, r') ← parse_nat r; Some (JNum (- n), r')
          else if digit c is Some _ then
            '(n, r') ← parse_nat s'; Some (JNum n, r')
          else
            match strip_prefix "null" s', strip_prefix "true" s',
                  strip_prefix "false" s' with
            | Some r', _, _ => Some (JNull, r')
            | _, Some r', _ => Some (JBool true, r')
            | _, _, Some r' => Some (JBool false, r')
            | _, _, _ => None
            end
      end
  end

with parse_elements (fuel : nat) (s : string) {struct fuel}
  : option (list json * string) :=
  match fuel with
  | O => None
  | S fuel =>
      '(v, r) ← parse_value fuel s;
      match skip_ws r with
      | String "," r' => '(vs, r'') ← parse_elements fuel r'; Some (v :: vs, r'')
      | String "]" r' => Some ([v], r')
      | _ => None
      end
  end

with parse_members (fuel : nat) (s : string) {struct fuel}
  : option (list (string * json) * string) :=
  match fuel with
  | O => None
  | S fuel =>
      match skip_ws s with
      | String c r =>
          if c =? quote then
            '(k, r) ← parse_chars r;
            match skip_ws r with
            | String ":" r =>
                '(v, r) ← parse_value fuel r;
                match skip_ws r with
                | String "," r' =>
                    '(fs, r'') ← parse_members fuel r'; Some ((k, v) :: fs, r'')
                | String "}" r' => Some ([(k, v)], r')
                | _ => None
                end
            | _ => None
            end
          else None
      | EmptyString => None
      end
  end.

Definition parseJSON (text : string) : option json :=
  '(v, r) ← parse_value (2 * String.length text + 2) text;
  match skip_ws r with
  | EmptyString => Some v
  | _ => None
  end.

End MiniJSON.

(** ** Concrete remote systems and workspaces *)

Module ConfigScenarios.
Import ConfigFile MiniJSON.

Local Open Scope string_scope.

(** A remote system whose only readable stream file is [path]. *)
Definition server_with (path body : string) : IBMiContent :=
  {| testStreamFile := λ p _, bool_decide (p = path);
     downloadStreamfileRaw := λ p, if decide (p = path) then body else EmptyString |}.

(** A window with the single workspace folder [project], holding [files]
    (path relative to the folder, body).  A pattern [**/p] finds the file
    at [p]. *)
Definition vscode_with (files : list (string * string)) : VSCodeWorkspace :=
  {| workspaceFolders := Some ["project"];
     findFiles := λ folder pattern,
       if decide (folder = "project")
       then (filter (λ f, "**/" +:+ f.1 = pattern) files).*1
       else [];
     readFile := λ file,
       default EmptyString
         ((λ found : nat * (string * string), found.2.2)
            <$> list_find (λ f : string * string, f.1 = file) files) |}.

(** The document [{"a": n}] and its text. *)
Definition doc_a (n : Z) : json := JObj [("a", JNum n)].
Definition text_a (n : string) : string := "{" +:+ q "a" +:+ ":" +:+ n +:+ "}".

(** The document [{"K": items}] and the texts of two such documents. *)
Definition doc_K (items : list Z) : json := JObj [("K", JArr (JNum <$> items))].
Definition text_K_12 : string := "{" +:+ q "K" +:+ ":[1,2]}".
Definition text_K_3 : string := "{" +:+ q "K" +:+ ":[3]}".

(** A config file [actions] that has a server copy. *)
Definition actions : ConfigFile := set_hasServerFile true (new "actions").

(** A validator that accepts objects as they are and throws on anything
    else, [undefined] included. *)
Definition objects_only (loadedConfig : any) : validation :=
  match loadedConfig with
  | Some (JObj fields) => Cleans (JObj fields) (Some (JObj fields))
  | _ => Rejects
  end.

End ConfigScenarios.

(** ** Workspaces that hold a config file *)

Module ConfigWorkspace.
Import ConfigFile.

Local Open Scope string_scope.


End ConfigWorkspace.


(** ** [ConfigFile.get], followed through its awaits

    [get] waits twice: for [workspace.findFiles] (line 67) and for
    [workspace.fs.readFile] (line 72, outside the [try]).  Either promise can
    reject, which rejects the call; and while the call waits other code runs,
    which can be anything that writes to the object: a [loadFromServer] that
    completes, a [reset], an assignment to a public field.  After the waits
    the call reads [this.serverData] and [this.mergeArrays] afresh. *)

Module ConfigFileAsync.
Import ConfigFile.

Local Open Scope string_scope.

(** What the promise rejects with: an exception raised by the code of
    [get], or the rejection of [findFiles] or [readFile]. *)
Inductive rejection :=
| Raised (e : exn)
| FileSystemError.

Inductive settled (A : Type) : Type :=
| Resolved (a : A)
| Rejected (r : rejection).
Arguments Resolved {A} a.
Arguments Rejected {A} r.

(** The surroundings of one call. *)
Record Surroundings := {
  vscode : VSCodeWorkspace;
  (** does [findFiles(new RelativePattern(folder, pattern), null, 1)]
      reject? *)
  findFiles_rejects : WorkspaceFolder → string → bool;
  (** does [fs.readFile(file)] reject? *)
  readFile_rejects : Uri → bool;
  (** what other code does to the object while the call waits *)
  during_findFiles : ConfigFile → ConfigFile;
  during_readFile : ConfigFile → ConfigFile;
  (** [validator_effect resultingConfig serverData]: the cached server data
      after the validator has worked in place on a [resultingConfig] that
      shares objects with it *)
  validator_effect : any → any → any
}.

(** Objects and arrays are handed around by reference. *)
Definition is_reference (v : any) : bool :=
  match v with
  | Some (JArr _) | Some (JObj _) => true
  | _ => false
  end.

(** Can the value of [resultingConfig] (lines 86-99) share objects with the
    cached server data?  It is the cached data itself when the workspace
    config is falsy, and the spread of line 92 copies the elements of the
    server's array by reference; a workspace document taken as it is shares
    nothing. *)
Definition may_share (workspaceConfig : any) (this : ConfigFile) : bool :=
  is_reference (serverData this)
  && (negb (truthy workspaceConfig) || mergeArrays this).

Section WithJSON.

Variable JSON_parse : string → option json.
Variable env : Surroundings.

(** [for (const file of configFiles)] (lines 71-79): each turn waits for
    [readFile], then parses. *)
Fixpoint read_config_files (configFiles : list Uri) (workspaceConfig : any)
    (this : ConfigFile) : ConfigFile * settled any :=
  match configFiles with
  | [] => (this, Resolved workspaceConfig)
  | file :: configFiles =>
      let this := during_readFile env this in
      if readFile_rejects env file then (this, Rejected FileSystemError)
      else
        let read :=
          read_config_file JSON_parse (vscode env) (workspaceConfig, this) file in
        read_config_files configFiles read.1 read.2
  end.

(** Lines 65-80. *)
Definition load_workspace (currentWorkspace : option WorkspaceFolder)
    (this : ConfigFile) : ConfigFile * settled any :=
  match workspaceFolders (vscode env), currentWorkspace with
  | Some _, Some folder =>
      let pattern := "**/" +:+ workspaceFile this in
      let this := during_findFiles env this in
      if findFiles_rejects env folder pattern
      then (this, Rejected FileSystemError)
      else
        let configFiles := take 1 (findFiles (vscode env) folder pattern) in
        let this := set_state_server no_exist this in
        read_config_files configFiles None this
  | _, _ => (this, Resolved None)
  end.

(** Lines 102-105: the call of the validator, which works in place. *)
Definition validate_result (workspaceConfig resultingConfig : any)
    (this : ConfigFile) : ConfigFile * settled any :=
  match validateAndCleanInPlace this with
  | Some validate =>
      let this :=
        if may_share workspaceConfig this
        then set_serverData
               (validator_effect env resultingConfig (serverData this)) this
        else this in
      match validate resultingConfig with
      | Rejects => (this, Rejected (Raised ValidationError))
      | Cleans _ result => (this, Resolved result)
      end
  | None => (this, Resolved resultingConfig)
  end.

(** Lines 82-107, which run without waiting. *)
Definition conclude (workspaceConfig : any) (this : ConfigFile)
  : ConfigFile * settled any :=
  match workspaceConfig, serverData this with
  | None, None => (this, Resolved None)
  | _, _ =>
      match combine this workspaceConfig with
      | Thrown e => (this, Rejected (Raised e))
      | Returned resultingConfig =>
          validate_result workspaceConfig resultingConfig this
      end
  end.

(** [get(currentWorkspace)]: the object when the promise settles, and what
    it settles to. *)
Definition get (currentWorkspace : option WorkspaceFolder) (this : ConfigFile)
  : ConfigFile * settled any :=
  if truthy (serverData this) then (this, Resolved (serverData this))
  else
    match load_workspace currentWorkspace this with
    | (this, Rejected r) => (this, Rejected r)
    | (this, Resolved workspaceConfig) => conclude workspaceConfig this
    end.

End WithJSON.

(** A call during which nothing else runs and no promise rejects. *)
Definition undisturbed (vscode : VSCodeWorkspace) : Surroundings :=
  {| vscode := vscode;
     findFiles_rejects := λ _ _, false;
     readFile_rejects := λ _, false;
     during_findFiles := λ this, this;
     during_readFile := λ this, this;
     validator_effect := λ _ serverData, serverData |}.

Definition settled_of_outcome {A} (o : outcome A) : settled A :=
  match o with
  | Returned a => Resolved a
  | Thrown e => Rejected (Raised e)
  end.

(** The other code leaves the cached server data falsy whenever it finds
    it so. *)
Definition keeps_cache_falsy (env : Surroundings) : Prop :=
  ∀ this, truthy (serverData this) = false →
    truthy (serverData (during_findFiles env this)) = false
    ∧ truthy (serverData (during_readFile env this)) = false.

(** The other code neither reads nor writes [mergeArrays]. *)
Definition leaves_mergeArrays (env : Surroundings) : Prop :=
  ∀ b this,
    during_findFiles env (set_mergeArrays b this)
    = set_mergeArrays b (during_findFiles env this)
    ∧ during_readFile env (set_mergeArrays b this)
      = set_mergeArrays b (during_readFile env this).

End ConfigFileAsync.

(** ** Calls of [get] with other code in between *)

Module ConfigInterleavings.
Import ConfigFile MiniJSON ConfigScenarios ConfigFileAsync.

Local Open Scope string_scope.

(** The workspace holds [.vscode/actions.json] with the text
    [workspaceText]; while [get] waits for the search, a [loadFromServer]
    of a server file with the text [serverText] completes. *)
Definition load_during_search (workspaceText serverText : string)
  : Surroundings :=
  {| vscode := vscode_with [(".vscode/actions.json", workspaceText)];
     findFiles_rejects := λ _ _, false;
     readFile_rejects := λ _, false;
     during_findFiles := λ this,
       (loadFromServer parseJSON
          (server_with "/etc/.vscode/actions.json" serverText) this).1;
     during_readFile := λ this, this;
     validator_effect := λ _ serverData, serverData |}.

(** The same workspace; while [get] waits, [reset] is called, and the read
    of the file fails. *)
Definition reset_during_search : Surroundings :=
  {| vscode := vscode_with [(".vscode/actions.json", text_K_12)];
     findFiles_rejects := λ _ _, false;
     readFile_rejects := λ _, true;
     during_findFiles := reset;
     during_readFile := λ this, this;
     validator_effect := λ _ serverData, serverData |}.

End ConfigInterleavings.
(** ** The editor's data, as far as the extension reads it *)

Module VSCode.

(** [vscode.Uri] *)
Record Uri := {
  scheme : string;
  authority : string;
  path : string;
  query : string;
  fragment : string
}.

(** [vscode.TextDocument] *)
Module TextDocument.
Record t := {
  uri : Uri;
  isClosed : bool;
  isDirty : bool
}.
End TextDocument.

(** [tab.input]: a text editor on [uri], or one of the other kinds of input
    (diff, notebook, custom editor, webview, terminal). *)
Inductive TabInput :=
| TabInputText (uri : Uri)
| TabInputOther.

(** [vscode.Tab].  [id] stands for the identity of the tab object, which is
    what [tabGroups.close(tab)] goes by. *)
Module Tab.
Record t := {
  id : nat;
  input : TabInput;
  isDirty : bool
}.
End Tab.

(** [vscode.TabGroup] *)
Record TabGroup := { tabs : list Tab.t }.

End VSCode.

(** ** The URI helpers ([areEquivalentUris], [findExistingDocument], ...) *)

Module Uris.
Import VSCode.

Local Open Scope string_scope.

(** A string is held with one character for each of its code units.  On a
    string whose code units are all below 128 ([ascii_only]) the letters
    [A]-[Z] are the only ones with a case, and [toLowerCase] below is the
    engine's [String.prototype.toLowerCase]; beyond that range the engine
    also maps the other cased letters of Unicode, which [lower_char] leaves
    alone.  The statements that depend on the case mapping therefore ask for
    [ascii_only] schemes and paths. *)
Definition is_ascii_char (c : ascii) : bool := (N_of_ascii c <? 128)%N.

Fixpoint ascii_only (s : string) : bool :=
  match s with
  | EmptyString => true
  | String c rest => is_ascii_char c && ascii_only rest
  end.

Definition lower_char (c : ascii) : ascii :=
  let n := N_of_ascii c in
  if (65 <=? n)%N && (n <=? 90)%N then ascii_of_N (n + 32) else c.

Fixpoint toLowerCase (s : string) : string :=
  match s with
  | EmptyString => EmptyString
  | String c rest => String (lower_char c) (toLowerCase rest)
  end.

(** [/^literal/i.test(s)] for a [literal] without special characters. *)
Fixpoint test_prefix_i (literal s : string) : bool :=
  match literal, s with
  | EmptyString, _ => true
  | String a literal', String b s' =>
      Ascii.eqb (lower_char a) (lower_char b) && test_prefix_i literal' s'
  | String _ _, EmptyString => false
  end.

(** [uri.scheme === `streamfile` && /^\/QOpenSys\//i.test(uri.path)] *)
Definition isCaseSensitive (uri : Uri) : bool :=
  bool_decide (scheme uri = "streamfile")
  && test_prefix_i "/QOpenSys/" (path uri).

(** [uriStringWithoutFragment(uri)] *)
Definition uriStringWithoutFragment (uri : Uri) : string :=
  let baseUri := scheme uri +:+ ":" +:+ path uri in
  if isCaseSensitive uri then baseUri else toLowerCase baseUri.

(** [areEquivalentUris(uriA, uriB)] *)
Definition areEquivalentUris (uriA uriB : Uri) : bool :=
  bool_decide (uriStringWithoutFragment uriA = uriStringWithoutFragment uriB).

(** [findExistingDocument(uri)], over [vscode.workspace.textDocuments]. *)
Definition findExistingDocument (textDocuments : list TextDocument.t) (uri : Uri)
  : option TextDocument.t :=
  let baseUriString := uriStringWithoutFragment uri in
  snd <$> list_find
            (λ document, uriStringWithoutFragment (TextDocument.uri document) = baseUriString)
            textDocuments.

(** [findExistingDocumentUri(uri)]: [possibleDoc?.uri || uri] *)
Definition findExistingDocumentUri (textDocuments : list TextDocument.t) (uri : Uri)
  : Uri :=
  match findExistingDocument textDocuments uri with
  | Some possibleDoc => TextDocument.uri possibleDoc
  | None => uri
  end.

(** *** The specification's notion of resource identity

    Normalization keeps the scheme and the path only (the read-only flag
    travels in the query), and lowercases the path unless it is a stream
    file path under the case-sensitive root. *)
Definition under_case_sensitive_root (uri : Uri) : Prop :=
  scheme uri = "streamfile" ∧ test_prefix_i "/QOpenSys/" (path uri) = true.

#[export] Instance under_case_sensitive_root_dec uri :
  Decision (under_case_sensitive_root uri).
Proof. unfold under_case_sensitive_root. apply _. Defined.

Definition normalized_path (uri : Uri) : string :=
  if decide (under_case_sensitive_root uri) then path uri
  else toLowerCase (path uri).

Definition same_resource (a b : Uri) : Prop :=
  scheme a = scheme b ∧ normalized_path a = normalized_path b.

(** A scheme as the extension writes them ([member], [streamfile],
    [object], [file]): lower case, and, as in every URI, without a colon. *)
Fixpoint colon_free (s : string) : Prop :=
  match s with
  | EmptyString => True
  | String c rest => c ≠ ":"%char ∧ colon_free rest
  end.

Definition canonical_scheme (s : string) : Prop :=
  toLowerCase s = s ∧ colon_free s.

(** A URI whose scheme and path are made of code units below 128. *)
Definition ascii_uri (uri : Uri) : Prop :=
  ascii_only (scheme uri) = true ∧ ascii_only (path uri) = true.

Definition resource_schemes : list string :=
  ["member"; "streamfile"; "object"; "file"].

(** The same identifier with another authority, query and fragment. *)
Definition with_decoration (uri : Uri) (authority query fragment : string) : Uri :=
  {| scheme := scheme uri; authority := authority; path := path uri;
     query := query; fragment := fragment |}.

(** *** Two identifiers of one stream file under the case-sensitive root *)

Definition readonly_copy : Uri :=
  {| scheme := "streamfile"; authority := EmptyString;
     path := "/QOpenSys/home/Foo.txt";
     query := "readonly=true"; fragment := EmptyString |}.


(** *** Two identifiers of one member, in different cases *)

Definition member_in_capitals : Uri :=
  {| scheme := "member"; authority := EmptyString;
     path := "/LIB/QRPGLESRC/PGM.RPGLE";
     query := "readonly=true"; fragment := EmptyString |}.

Definition member_in_small_letters : Uri :=
  {| scheme := "member"; authority := EmptyString;
     path := "/lib/qrpglesrc/pgm.rpgle";
     query := EmptyString; fragment := "L10" |}.


End Uris.

(** ** src/instantiate.ts *)

Module Instantiate.
Import VSCode.

Local Open Scope string_scope.

(** The schemes of the documents that live on the remote system:
    [[`member`, `streamfile`, `object`]]. *)
Definition remoteSchemes : list string := ["member"; "streamfile"; "object"].

(** *** [disconnect]

    What [disconnect] does to the world: it shows documents, asks the user,
    and ends the connection. *)
Inductive event :=
| ShowTextDocument (document : TextDocument.t)
| ShowErrorMessage (message : string) (items : list string)
| ConnectionEnd.

Record World := {
  (** [vscode.workspace.textDocuments] *)
  textDocuments : list TextDocument.t;
  (** whether [instance.getConnection()] is defined *)
  connected : bool;
  (** what the user will do with the coming messages: [true] clicks the
      button, [false] dismisses the message; a user who has left dismisses *)
  clicks : list bool;
  log : list event
}.

Definition record (e : event) (w : World) : World :=
  {| textDocuments := textDocuments w; connected := connected w;
     clicks := clicks w; log := log w ++ [e] |}.

(** [vscode.window.showTextDocument(document)] *)
Definition showTextDocument (document : TextDocument.t) (w : World) : World :=
  record (ShowTextDocument document) w.

(** What the user does with the next message. *)
Definition next_click (w : World) : bool :=
  match clicks w with
  | click :: _ => click
  | [] => false
  end.

(** [vscode.window.showErrorMessage(message, item)]: the item the user
    clicked, or [undefined]. *)
Definition showErrorMessage (message item : string) (w : World)
  : option string * World :=
  let answer := if next_click w then Some item else None in
  (answer,
   {| textDocuments := textDocuments w; connected := connected w;
      clicks := tail (clicks w);
      log := log w ++ [ShowErrorMessage message [item]] |}).

(** [connection.end()] *)
Definition connection_end (w : World) : World :=
  {| textDocuments := textDocuments w; connected := false;
     clicks := clicks w; log := log w ++ [ConnectionEnd] |}.

(** Truthiness of [string | undefined]. *)
Definition truthy (answer : option string) : bool :=
  match answer with
  | Some s => negb (bool_decide (s = EmptyString))
  | None => false
  end.

Definition unsavedMessage : string :=
  "Cannot disconnect while files have not been saved.".
Definition disconnectAnyway : string := "Disconnect anyway".

(** The [for] loop of [disconnect] over the remaining [documents]; the
    [break] ends it with [doDisconnect] as it is. *)
Fixpoint check_documents (documents : list TextDocument.t) (doDisconnect : bool)
    (w : World) : bool * World :=
  match documents with
  | [] => (doDisconnect, w)
  | document :: documents =>
      if negb (TextDocument.isClosed document)
         && bool_decide (scheme (TextDocument.uri document) ∈ remoteSchemes)
      then
        if TextDocument.isDirty document then
          if doDisconnect then
            let '(answer, w) :=
              showErrorMessage unsavedMessage disconnectAnyway
                (showTextDocument document w) in
            if truthy answer then (doDisconnect, w)
            else check_documents documents false w
          else check_documents documents doDisconnect w
        else check_documents documents doDisconnect w
      else check_documents documents doDisconnect w
  end.

(** [disconnect()] *)
Definition disconnect (w : World) : bool * World :=
  let '(doDisconnect, w) := check_documents (textDocuments w) true w in
  let w :=
    if doDisconnect then
      if connected w then connection_end w else w
    else w in
  (doDisconnect, w).

(** A document that holds up the disconnect: open, remote, unsaved. *)
Definition unsaved_remote (document : TextDocument.t) : bool :=
  negb (TextDocument.isClosed document)
  && bool_decide (scheme (TextDocument.uri document) ∈ remoteSchemes)
  && TextDocument.isDirty document.

(** *** [onDisconnected] *)

Inductive StatusBarItem :=
| disconnectBarItem | connectedBarItem | terminalBarItem | actionsBarItem.

#[export] Instance StatusBarItem_eq_dec : EqDecision StatusBarItem.
Proof. solve_decision. Defined.

Record Window := {
  (** [vscode.window.tabGroups.all] *)
  tabGroups : list TabGroup;
  (** the status bar items that are shown *)
  shownBarItems : list StatusBarItem
}.

(** [vscode.window.tabGroups.close(tab)] *)
Definition close (tab : Tab.t) (w : Window) : Window :=
  {| tabGroups :=
       (λ group, {| tabs := filter (λ t, Tab.id t ≠ Tab.id tab) (tabs group) |})
         <$> tabGroups w;
     shownBarItems := shownBarItems w |}.

(** [barItem.hide()] *)
Definition hide (barItem : StatusBarItem) (w : Window) : Window :=
  {| tabGroups := tabGroups w;
     shownBarItems := filter (λ item, item ≠ barItem) (shownBarItems w) |}.

(** [group.tabs.some(tab => tab.isDirty)] *)
Definition has_dirty_tab (group : TabGroup) : bool :=
  existsb Tab.isDirty (tabs group).

(** [tab.input instanceof vscode.TabInputText] and the scheme of its URI is
    one of the remote ones. *)
Definition is_remote_text_tab (tab : Tab.t) : bool :=
  match Tab.input tab with
  | TabInputText uri => bool_decide (scheme uri ∈ remoteSchemes)
  | TabInputOther => false
  end.

(** The callback of [group.tabs.forEach]. *)
Definition visit_tab (w : Window) (tab : Tab.t) : Window :=
  if is_remote_text_tab tab then close tab w else w.

(** The callback of the outer [forEach]. *)
Definition visit_group (w : Window) (group : TabGroup) : Window :=
  foldl visit_tab w (tabs group).

(** [onDisconnected()].  The two [forEach] walk the tab groups as they were
    when the function was entered. *)
Definition onDisconnected (w : Window) : Window :=
  let groups := filter (λ group, has_dirty_tab group = false) (tabGroups w) in
  let w := foldl visit_group w groups in
  foldl (λ w barItem, hide barItem w) w
    [disconnectBarItem; connectedBarItem; terminalBarItem; actionsBarItem].

(** A tab is open in a window. *)
Definition open_in (tab : Tab.t) (w : Window) : Prop :=
  ∃ group, group ∈ tabGroups w ∧ tab ∈ tabs group.

(** The identities of all the tabs of a window. *)
Definition tab_ids (groups : list TabGroup) : list nat :=
  groups ≫= λ group, Tab.id <$> tabs group.

(** The specification's statement: "every editor tab for the
    member/streamfile/object schemes that has no unsaved changes is
    closed". *)
Definition closes_every_clean_remote_tab (w : Window) : Prop :=
  ∀ tab, open_in tab w →
    is_remote_text_tab tab = true → Tab.isDirty tab = false →
    ¬ open_in tab (onDisconnected w).

(** Closing all the tabs whose identity is among [ids]. *)
Definition close_ids (ids : list nat) (groups : list TabGroup) : list TabGroup :=
  (λ group, {| tabs := filter (λ t, Tab.id t ∉ ids) (tabs group) |}) <$> groups.

(** The identities of the tabs [onDisconnected] asks to close. *)
Definition remote_text_ids (group : TabGroup) : list nat :=
  Tab.id <$> filter (λ tab, is_remote_text_tab tab = true) (tabs group).

Definition closed_ids (groups : list TabGroup) : list nat :=
  filter (λ group, has_dirty_tab group = false) groups ≫= remote_text_ids.

(** What a tab group is left as. *)
Definition group_after (group : TabGroup) : TabGroup :=
  if has_dirty_tab group then group
  else {| tabs := filter (λ tab, is_remote_text_tab tab = false) (tabs group) |}.

(** *** A window with one tab group: an unsaved member and a saved one *)

Definition member (path : string) : Uri :=
  {| scheme := "member"; authority := EmptyString; path := path;
     query := EmptyString; fragment := EmptyString |}.

Definition unsaved_tab : Tab.t :=
  {| Tab.id := 1; Tab.input := TabInputText (member "/LIB/SRC/A.RPGLE");
     Tab.isDirty := true |}.

Definition saved_tab : Tab.t :=
  {| Tab.id := 2; Tab.input := TabInputText (member "/LIB/SRC/B.RPGLE");
     Tab.isDirty := false |}.

Definition two_members : Window :=
  {| tabGroups := [ {| tabs := [unsaved_tab; saved_tab] |} ];
     shownBarItems := [disconnectBarItem; connectedBarItem;
                       terminalBarItem; actionsBarItem] |}.

(** *** A connected session with a saved and two unsaved documents; the user
    will dismiss the message *)

Definition three_documents : World :=
  {| textDocuments :=
       [ {| TextDocument.uri := member "/LIB/SRC/B.RPGLE";
            TextDocument.isClosed := false; TextDocument.isDirty := false |};
         {| TextDocument.uri := member "/LIB/SRC/A.RPGLE";
            TextDocument.isClosed := false; TextDocument.isDirty := true |};
         {| TextDocument.uri := member "/LIB/SRC/C.RPGLE";
            TextDocument.isClosed := false; TextDocument.isDirty := true |} ];
     connected := true;
     clicks := [false];
     log := [] |}.

End Instantiate.

(** ** The debug bootstrap commands *)

Module Debug.

Local Open Scope string_scope.

Definition ptfContext : string := "code-for-ibmi:debug.ptf".
Definition remoteCertContext : string := "code-for-ibmi:debug.remote".
Definition localCertContext : string := "code-for-ibmi:debug.local".

(** The connection, as far as the commands read it. *)
Record IBMi := { remoteFeatures : gmap string string }.

Inductive event :=
| ShowErrorMessage (message : string)
(** the modal question "Debug certificates are not setup on the system.
    Continue with setup?" *)
| AskSetup
(** [executeCommand(`setContext`, key, value)] *)
| SetContext (key : string) (value : bool)
(** [certificates.setup(connection)] was called *)
| CertificatesSetup
(** [certificates.downloadToLocal(connection)] was called *)
| DownloadToLocal.

Record World := {
  (** [instance.connection] *)
  connection : option IBMi;
  (** certificate material exists on the remote system, on this machine *)
  remoteCertificate : bool;
  localCertificate : bool;
  (** the user answers "Continue" to the setup question *)
  continues : bool;
  (** the message of the error [certificates.setup] fails with, if it fails *)
  setupError : option string;
  (** [certificates.downloadToLocal] fails *)
  downloadFails : bool;
  log : list event
}.

Definition record (e : event) (w : World) : World :=
  {| connection := connection w; remoteCertificate := remoteCertificate w;
     localCertificate := localCertificate w; continues := continues w;
     setupError := setupError w; downloadFails := downloadFails w;
     log := log w ++ [e] |}.

(** Modelled from the spec: [certificates.checkRemoteExists] (the module
    [./certificates] is not among the sources) probes for existing remote
    certificate material. *)
Definition checkRemoteExists (w : World) : bool := remoteCertificate w.

(** Modelled from the spec: [certificates.checkLocalExists] probes the local
    certificate material. *)
Definition checkLocalExists (w : World) : bool := localCertificate w.

(** Modelled from the spec: [certificates.setup] generates the remote
    certificate material, or fails with an error message. *)
Definition certificates_setup (w : World) : World + string :=
  match setupError w with
  | Some message => inr message
  | None =>
      inl {| connection := connection w; remoteCertificate := true;
             localCertificate := localCertificate w; continues := continues w;
             setupError := setupError w; downloadFails := downloadFails w;
             log := log w ++ [CertificatesSetup] |}
  end.

(** Modelled from the spec: [certificates.downloadToLocal] downloads from
    the remote system to the local store, or fails. *)
Definition downloadToLocal (w : World) : World + unit :=
  if downloadFails w then inr ()
  else
    inl {| connection := connection w; remoteCertificate := remoteCertificate w;
           localCertificate := true; continues := continues w;
           setupError := setupError w; downloadFails := downloadFails w;
           log := log w |}.

(** [debugPTFInstalled()]:
    [connection?.remoteFeatures[`startDebugService.sh`] !== undefined] *)
Definition debugPTFInstalled (w : World) : bool :=
  match connection w with
  | Some connection =>
      bool_decide (is_Some (remoteFeatures connection !! "startDebugService.sh"))
  | None => false
  end.

(** The command [code-for-ibmi.debug.setup.local]. *)
Definition setup_local (force : bool) (w : World) : World :=
  match connection w with
  | Some _ =>
      if debugPTFInstalled w then
        let localExists := checkLocalExists w in
        let '(localCertsOk, w) :=
          if localExists && negb force then (true, w)
          else
            match downloadToLocal (record DownloadToLocal w) with
            | inl w => (true, w)
            | inr _ =>
                (false,
                 record (ShowErrorMessage
                           "Failed to download new local debug certificate")
                        (record DownloadToLocal w))
            end in
        if localCertsOk then record (SetContext localCertContext true) w else w
      else record (ShowErrorMessage "Debug PTF not installed.") w
  | None => w
  end.

(** The command [code-for-ibmi.debug.setup.remote]. *)
Definition setup_remote (w : World) : World :=
  match connection w with
  | Some _ =>
      if debugPTFInstalled w then
        let remoteExists := checkRemoteExists w in
        let '(remoteCertsAreNew, remoteCertsOk, w) :=
          if remoteExists then (false, true, w)
          else
            let doSetup := continues w in
            let w := record AskSetup w in
            if doSetup then
              match certificates_setup w with
              | inl w => (true, true, w)
              | inr message => (false, false, record (ShowErrorMessage message) w)
              end
            else (false, false, w) in
        if remoteCertsOk then
          setup_local remoteCertsAreNew
            (record (SetContext remoteCertContext true) w)
        else w
      else record (ShowErrorMessage "Debug PTF not installed.") w
  | None => record (ShowErrorMessage "No connection to IBM i available.") w
  end.

(** What the local step leaves in the log after a download. *)
Definition download_events (w : World) : list event :=
  DownloadToLocal ::
    (if downloadFails w
     then [ShowErrorMessage "Failed to download new local debug certificate"]
     else [SetContext localCertContext true]).

(** *** A system with the debug service but no certificates yet, and a stale
    local certificate *)

Definition fresh_system : World :=
  {| connection :=
       Some {| remoteFeatures :=
                 {[ "startDebugService.sh" :=
                      "/QIBM/ProdData/IBMiDebugService/bin/startDebugService.sh" ]} |};
     remoteCertificate := false;
     localCertificate := true;
     continues := true;
     setupError := None;
     downloadFails := false;
     log := [] |}.

End Debug.

(** ** src/uri/index.ts *)

Module UriHandler.

Local Open Scope string_scope.

(** A JavaScript number, as far as a port needs one. *)
Inductive number := NaN | Num (n : Z).

(** [ConnectionData], with the fields the handler fills in. *)
Record ConnectionData := {
  name : string;
  host : string;
  port : number;
  username : string;
  password : option string
}.

(** A value of the parsed query: [string | string[]]; [undefined] is [None]. *)
Inductive QueryValue :=
| QString (s : string)
| QArray (items : list string).

(** [String(v)] *)
Definition String_ (v : option QueryValue) : string :=
  match v with
  | None => "undefined"
  | Some (QString s) => s
  | Some (QArray items) => String.concat "," items
  end.

(** Truthiness of [string | string[] | undefined]. *)
Definition truthy (v : option QueryValue) : bool :=
  match v with
  | None => false
  | Some (QString s) => negb (bool_decide (s = EmptyString))
  | Some (QArray _) => true
  end.

(** [v === text] *)
Definition strict_equal (v : option QueryValue) (text : string) : bool :=
  match v with
  | Some (QString s) => bool_decide (s = text)
  | _ => false
  end.

(** [s.split(`:`)] *)
Fixpoint split_colon (s : string) : list string :=
  match s with
  | EmptyString => [EmptyString]
  | String c rest =>
      let parts := split_colon rest in
      if Ascii.eqb c ":" then EmptyString :: parts
      else
        match parts with
        | part :: parts => String c part :: parts
        | [] => [String c EmptyString]
        end
  end.

Inductive event :=
| ShowInputBox (title : string)
| ShowInformationMessage (detail : string)
| ShowErrorMessage (message : string).

Record World := {
  (** whether [instance.getConnection()] is defined *)
  connected : bool;
  (** what the user types into the coming input boxes; [None] cancels *)
  inputs : list (option string);
  (** the result of the command [code-for-ibmi.connectDirect] *)
  connectDirect : ConnectionData → bool;
  (** [GlobalConfiguration]'s [connections] *)
  connections : option (list ConnectionData);
  (** [context.secrets] *)
  secrets : gmap string string;
  log : list event
}.

(** [window.showInputBox(...)] *)
Definition showInputBox (title : string) (w : World)
  : option QueryValue * World :=
  (QString <$> mjoin (head (inputs w)),
   {| connected := connected w; inputs := tail (inputs w);
      connectDirect := connectDirect w; connections := connections w;
      secrets := secrets w; log := (log w ++ [ShowInputBox title])%list |}).

Definition record (e : event) (w : World) : World :=
  {| connected := connected w; inputs := inputs w;
     connectDirect := connectDirect w; connections := connections w;
     secrets := secrets w; log := (log w ++ [e])%list |}.

(** [context.secrets.store(key, value)] *)
Definition secrets_store (key value : string) (w : World) : World :=
  {| connected := connected w; inputs := inputs w;
     connectDirect := connectDirect w; connections := connections w;
     secrets := <[key := value]> (secrets w); log := log w |}.

(** [GlobalConfiguration.set(`connections`, value)] *)
Definition set_connections (value : list ConnectionData) (w : World) : World :=
  {| connected := connected w; inputs := inputs w;
     connectDirect := connectDirect w; connections := Some value;
     secrets := secrets w; log := log w |}.

(** [{...connectionData, password: undefined}] *)
Definition without_password (connectionData : ConnectionData) : ConnectionData :=
  {| name := name connectionData; host := host connectionData;
     port := port connectionData; username := username connectionData;
     password := None |}.

Section WithNode.

(** [Buffer.from(text, `base64`).toString()] and [Number(text)]. *)
Variable fromBase64 : string → string.
Variable Number : string → number.

(** Lines 65-82: [if (save) ...].  [initialSandboxSetup], which runs just
    before, is not among the sources; it is taken not to touch the saved
    connections nor the secrets. *)
Definition save_connection (connectionData : ConnectionData)
    (host : string) (pass : option QueryValue) (w : World) : World :=
  match connections w with
  | Some existingConnections =>
      match find (λ item, bool_decide (name item = host)) existingConnections with
      | None =>
          let existingConnections :=
            (existingConnections ++ [without_password connectionData])%list in
          set_connections existingConnections
            (secrets_store (host +:+ "_password") (String_ pass) w)
      | Some _ => w
      end
  | None => w
  end.

(** The case [/connect] of [handleUri], on the parsed query. *)
Definition handleConnect (queryData : gmap string QueryValue) (w : World) : World :=
  if connected w then record (ShowInformationMessage "sandbox.alreadyConnected") w
  else
    let save := strict_equal (queryData !! "save") "true" in
    let server := String_ (queryData !! "server") in
    let user := queryData !! "user" in
    let pass := queryData !! "pass" in
    if negb (bool_decide (server = EmptyString)) then
      let '(user, w) :=
        if truthy user then (user, w)
        else showInputBox "sandbox.input.user.title" w in
      let '(pass, w) :=
        if truthy pass then (Some (QString (fromBase64 (String_ pass))), w)
        else showInputBox "sandbox.input.password.title" w in
      if truthy user && truthy pass then
        let serverParts := split_colon server in
        let host := default EmptyString (head serverParts) in
        let port :=
          if bool_decide (length serverParts = 2%nat)
          then Number (default EmptyString (serverParts !! 1%nat))
          else Num 22 in
        let connectionData :=
          {| host := host;
             name := String_ user +:+ "-" +:+ host;
             username := String_ user;
             password := Some (String_ pass);
             port := port |} in
        if connectDirect w connectionData then
          if save then save_connection connectionData host pass w else w
        else record (ShowInformationMessage "sandbox.failedToConnect") w
      else record (ShowErrorMessage "sandbox.noPassword") w
    else w.

(** [handleUri(uri)], on [uri.path] and the parsed [uri.query]. *)
Definition handleUri (path : string) (queryData : gmap string QueryValue)
    (w : World) : World :=
  if bool_decide (path = "/connect") then handleConnect queryData w else w.

End WithNode.

(** *** A saved connection and a link to the same system *)

Definition bob_at_myhost : ConnectionData :=
  {| name := "bob-myhost"; host := "myhost"; port := Num 22;
     username := "bob"; password := None |}.

(** [/connect?server=myhost&user=bob&save=true] *)
Definition link_to_myhost : gmap string QueryValue :=
  {[ "server" := QString "myhost"; "user" := QString "bob";
     "save" := QString "true" ]}.

(** Nobody is connected, [bob-myhost] is saved, the user will type the
    password [secret], and connecting succeeds. *)
Definition before_link : World :=
  {| connected := false; inputs := [Some "secret"];
     connectDirect := λ _, true;
     connections := Some [bob_at_myhost];
     secrets := ∅; log := [] |}.

End UriHandler.

(** ** src/languages/colour.ts: the check of opened documents *)

Module ColourChecker.
Import VSCode Colour.

Local Open Scope string_scope.

(** The connection's configuration, as far as the checker uses it. *)
Record Config := { autoFixInvalidCharacters : bool }.

(** The document handed to the listener: [document.uri], [isClosed],
    [getText()] and [lineCount]. *)
Record OpenedDocument := {
  document : TextDocument.t;
  getText : list N;
  lineCount : nat
}.

Inductive event :=
| ShowInformationMessage (message : string) (items : list string)
(** [instance.setConfig(config)] *)
| SetConfig (config : Config)
(** [workspace.applyEdit(edit)], where [edit] replaces the range from
    [(0, 0)] to [(lineCount, 0)] of [uri] *)
| ApplyEdit (uri : Uri) (lineCount : nat) (fixedContent : list N).

Record World := {
  (** [instance.getConfig()] *)
  config : option Config;
  (** the items the user will pick in the coming messages; [None]
      dismisses the message *)
  replies : list (option string);
  log : list event
}.

(** The loop of lines 13-18, over the remaining indices: it stops at the
    first code unit that [replaceCharCode] flags. *)
Fixpoint scan (content : list N) (indices : list nat) : bool :=
  match indices with
  | [] => false
  | i :: indices =>
      match charCodeAt content i with
      | Some code => if replaceCharCode code then true else scan content indices
      | None => scan content indices
      end
  end.

Definition hasInvalidCharacters (content : list N) : bool :=
  scan content (seq 0 (length content)).

Section WithLocale.

(** [t(key)], the localized text of [key]. *)
Variable t : string → string.

(** [window.showInformationMessage(message, ...items)] *)
Definition showInformationMessage (message : string) (items : list string)
    (w : World) : option string * World :=
  (mjoin (head (replies w)),
   {| config := config w; replies := tail (replies w);
      log := (log w ++ [ShowInformationMessage message items])%list |}).

(** [config.autoFixInvalidCharacters = true; await instance.setConfig(config)] *)
Definition setAutoFix (w : World) : World :=
  let config := {| autoFixInvalidCharacters := true |} in
  {| config := Some config; replies := replies w;
     log := (log w ++ [SetConfig config])%list |}.

(** [shouldInitiateCleanup()] *)
Definition shouldInitiateCleanup (w : World) : bool * World :=
  match config w with
  | Some {| autoFixInvalidCharacters := true |} => (true, w)
  | _ =>
      let always := t "Always" in
      let no := t "No" in
      let '(chosen, w) :=
        showInformationMessage (t "seuColours.warning") [t "Yes"; always; no] w in
      if bool_decide (chosen = Some no) then (false, w)
      else if bool_decide (chosen = Some always) && bool_decide (is_Some (config w))
      then (true, setAutoFix w)
      else (true, w)
  end.

(** The listener given to [workspace.onDidOpenTextDocument]. *)
Definition onDidOpenTextDocument (opened : OpenedDocument) (w : World) : World :=
  let document := document opened in
  if bool_decide (scheme (TextDocument.uri document) = "member")
     && negb (TextDocument.isClosed document)
  then
    let content := getText opened in
    if hasInvalidCharacters content then
      let '(shouldFix, w) := shouldInitiateCleanup w in
      if shouldFix then
        let fixedContent := replaceInvalidCharacters content in
        {| config := config w; replies := replies w;
           log := (log w ++ [ApplyEdit (TextDocument.uri document)
                                       (lineCount opened) fixedContent])%list |}
      else w
    else w
  else w.

End WithLocale.

(** The edit the listener applies to a document. *)
Definition the_edit (opened : OpenedDocument) : event :=
  ApplyEdit (TextDocument.uri (document opened)) (lineCount opened)
            (replaceInvalidCharacters (getText opened)).

(** A member that is open, with its text. *)
Definition opened_member (path : string) (content : list N) : OpenedDocument :=
  {| document :=
       {| TextDocument.uri :=
            {| scheme := "member"; authority := EmptyString; path := path;
               query := EmptyString; fragment := EmptyString |};
          TextDocument.isClosed := false; TextDocument.isDirty := false |};
     getText := content; lineCount := 1 |}.

End ColourChecker.

(** ** The other helpers beside the URI ones: [findUriTabs], [getGitAPI],
    [withContext] *)

Module Tools.
Import VSCode Uris.

Local Open Scope string_scope.

(** *** [findUriTabs] *)

(** [uriToFind: vscode.Uri | string] *)
Inductive UriToFind :=
| ByUri (uri : Uri)
| ByPath (path : string).

(** The predicate given to [group.tabs.filter]. *)
Definition tab_matches (uriToFind : UriToFind) (tab : Tab.t) : bool :=
  match Tab.input tab with
  | TabInputText uri =>
      match uriToFind with
      | ByUri uriToFind => areEquivalentUris uri uriToFind
      | ByPath uriToFind => String.prefix (uriToFind +:+ "/") (path uri)
      end
  | TabInputOther => false
  end.

(** [findUriTabs(uriToFind)], over [vscode.window.tabGroups.all]: the
    matching tabs of each group are pushed, group after group. *)
Definition findUriTabs (all : list TabGroup) (uriToFind : UriToFind)
  : list Tab.t :=
  foldl (λ resourceTabs group,
           foldl (λ resourceTabs tab, resourceTabs ++ [tab])%list resourceTabs
                 (List.filter (tab_matches uriToFind) (tabs group)))
        [] all.

(** The text tabs of a window all have a scheme in lower case. *)
Definition canonical_tabs (all : list TabGroup) : Prop :=
  ∀ group tab uri, group ∈ all → tab ∈ tabs group →
    Tab.input tab = TabInputText uri → canonical_scheme (scheme uri).

(** The text tabs of a window all have a scheme and a path made of code
    units below 128. *)
Definition ascii_tabs (all : list TabGroup) : Prop :=
  ∀ group tab uri, group ∈ all → tab ∈ tabs group →
    Tab.input tab = TabInputText uri → ascii_uri uri.

(** Three open documents: a stream file, then one member under two
    spellings. *)
Definition open_document (uri : Uri) : TextDocument.t :=
  {| TextDocument.uri := uri; TextDocument.isClosed := false;
     TextDocument.isDirty := false |}.

Definition three_open_documents : list TextDocument.t :=
  [open_document readonly_copy; open_document member_in_capitals;
   open_document member_in_small_letters].

(** *** [getGitAPI] *)

(** What [vscode.extensions.getExtension(`vscode.git`)?.exports.getAPI(1)]
    does at the time of a call: it yields the API, yields [undefined] (the
    extension is not there), or throws. *)
Inductive lookup (API : Type) :=
| Yields (api : option API)
| Throws.
Arguments Yields {API} api.
Arguments Throws {API}.

(** The two module variables [gitLookedUp] and [gitAPI]; both start out
    [undefined]. *)
Record GitState (API : Type) := {
  gitLookedUp : bool;
  gitAPI : option API
}.
Arguments gitLookedUp {API} _.
Arguments gitAPI {API} _.

Definition git_initial {API} : GitState API :=
  {| gitLookedUp := false; gitAPI := None |}.

(** [getGitAPI()] *)
Definition getGitAPI {API} (extension : lookup API) (st : GitState API)
  : GitState API * option API :=
  let st :=
    if negb (gitLookedUp st) then
      match extension with
      | Yields api => {| gitLookedUp := true; gitAPI := api |}
      | Throws => {| gitLookedUp := true; gitAPI := gitAPI st |}
      end
    else st in
  (st, gitAPI st).

(** *** [withContext] *)

(** [vscode.commands.executeCommand(`setContext`, context, value)], with
    [value] either [true] or [undefined]. *)
Inductive event :=
| SetContext (context : string) (value : option bool).

Record Contexts := {
  (** the module's [activeContexts] map *)
  activeContexts : gmap string nat;
  log : list event
}.

(** How a task ends. *)
Inductive settled (T : Type) :=
| Resolved (value : T)
| Rejected.
Arguments Resolved {T} value.
Arguments Rejected {T}.

(** The [try] block up to the call of the task. *)
Definition enter (context : string) (st : Contexts) : Contexts :=
  match activeContexts st !! context with
  | None =>
      {| activeContexts := <[context := 0%nat]> (activeContexts st);
         log := (log st ++ [SetContext context (Some true)])%list |}
  | Some stack =>
      {| activeContexts := <[context := S stack]> (activeContexts st);
         log := log st |}
  end.

(** The [finally] block. *)
Definition leave (context : string) (st : Contexts) : Contexts :=
  match activeContexts st !! context with
  | Some (S stack) =>
      {| activeContexts := <[context := stack]> (activeContexts st);
         log := log st |}
  | Some O =>
      {| activeContexts := delete context (activeContexts st);
         log := (log st ++ [SetContext context None])%list |}
  | None => st
  end.

(** [withContext(context, task)], for a task that runs to its end before
    anything else touches the map. *)
Definition withContext {T} (context : string)
    (task : Contexts → Contexts * settled T) (st : Contexts)
  : Contexts * settled T :=
  let st := enter context st in
  let '(st, result) := task st in
  (leave context st, result).

(** A task that leaves the map as it found it, as one that calls
    [withContext] itself does. *)
Definition balanced {T} (task : Contexts → Contexts * settled T) : Prop :=
  ∀ st, activeContexts (task st).1 = activeContexts st.

(** A task that shows nothing and resolves. *)
Definition quiet (st : Contexts) : Contexts * settled unit := (st, Resolved ()).

End Tools.

(** ** The command [code-for-ibmi.debug.start] *)

Module DebugSession.
Import Debug.

Local Open Scope string_scope.

(** What the command does beside the events of the two setup commands. *)
Inductive start_event :=
(** [server.startup(connection)] was called *)
| ServerStartup
(** the error message "Local debug certificate does not exist.", with its
    button "Setup" *)
| LocalCertificateMissing.

Record Session := {
  world : World;
  (** the user clicks "Setup" on that message *)
  clicksSetup : bool;
  started : list start_event
}.

Definition note (e : start_event) (s : Session) : Session :=
  {| world := world s; clicksSetup := clicksSetup s;
     started := (started s ++ [e])%list |}.

(** Running one of the setup commands. *)
Definition run (command : World → World) (s : Session) : Session :=
  {| world := command (world s); clicksSetup := clicksSetup s;
     started := started s |}.

(** The command [code-for-ibmi.debug.start]. *)
Definition debug_start (s : Session) : Session :=
  match connection (world s) with
  | Some _ =>
      if debugPTFInstalled (world s) then
        if checkRemoteExists (world s) then
          if checkLocalExists (world s) then note ServerStartup s
          else
            let s := note LocalCertificateMissing s in
            if clicksSetup s then run (setup_local false) s else s
        else run setup_remote s
      else run (record (ShowErrorMessage "Debug PTF not installed.")) s
  | None => s
  end.

(** The debug service is there and both certificates are. *)
Definition ready (w : World) : Prop :=
  is_Some (connection w) ∧ debugPTFInstalled w = true
  ∧ remoteCertificate w = true ∧ localCertificate w = true.

(** A session on [fresh_system]; the user would not click "Setup". *)
Definition fresh_session : Session :=
  {| world := fresh_system; clicksSetup := false; started := [] |}.

End DebugSession.

(** ** src/instantiate.ts: the commands [runAction] and [secret] *)

Module Commands.
Import VSCode.

Local Open Scope string_scope.

(** *** [code-for-ibmi.runAction] *)

Inductive event :=
(** [editor.document.save()] *)
| Save
(** the warning "The file must be saved to run Actions." with its three
    buttons *)
| AskSave
(** [ConnectionConfiguration.update(config)] *)
| UpdateConfig
(** [CompileTools.runAction(instance, uri)] *)
| RunAction (uri : Uri).

Record World := {
  (** the document of [vscode.window.activeTextEditor], if there is one *)
  activeDocument : option TextDocument.t;
  (** [config.autoSaveBeforeAction] *)
  autoSaveBeforeAction : bool;
  (** whether saving the document succeeds *)
  saves : bool;
  (** the buttons the user will click; [None] dismisses the message *)
  replies : list (option string);
  log : list event
}.

Definition record (e : event) (w : World) : World :=
  {| activeDocument := activeDocument w;
     autoSaveBeforeAction := autoSaveBeforeAction w; saves := saves w;
     replies := replies w; log := (log w ++ [e])%list |}.

(** [await editor.document.save()]: a document that is saved is no longer
    dirty. *)
Definition save (w : World) : World :=
  let saved (document : TextDocument.t) :=
    {| TextDocument.uri := TextDocument.uri document;
       TextDocument.isClosed := TextDocument.isClosed document;
       TextDocument.isDirty :=
         if saves w then false else TextDocument.isDirty document |} in
  {| activeDocument := saved <$> activeDocument w;
     autoSaveBeforeAction := autoSaveBeforeAction w; saves := saves w;
     replies := replies w; log := (log w ++ [Save])%list |}.

(** [vscode.window.showWarningMessage(message, `Save`, `Save
    automatically`, `Cancel`)] *)
Definition showWarningMessage (w : World) : option string * World :=
  (mjoin (head (replies w)),
   {| activeDocument := activeDocument w;
      autoSaveBeforeAction := autoSaveBeforeAction w; saves := saves w;
      replies := tail (replies w); log := (log w ++ [AskSave])%list |}).

(** [config.autoSaveBeforeAction = true;
     await ConnectionConfiguration.update(config)] *)
Definition saveAutomatically (w : World) : World :=
  {| activeDocument := activeDocument w;
     autoSaveBeforeAction := true; saves := saves w;
     replies := replies w; log := (log w ++ [UpdateConfig])%list |}.

(** The schemes an action is run for from the editor. *)
Definition actionSchemes : list string := ["member"; "streamfile"; "file"].

(** Lines 396-419: saving before the run; the result is [willRun]. *)
Definition save_before_run (document : TextDocument.t) (w : World)
  : bool * World :=
  if autoSaveBeforeAction w then (true, save w)
  else if TextDocument.isDirty document then
    let '(result, w) := showWarningMessage w in
    if bool_decide (result = Some "Save") then (true, save w)
    else if bool_decide (result = Some "Save automatically")
    then (true, save (saveAutomatically w))
    else (false, w)
  else (true, w).

(** The command [code-for-ibmi.runAction]; [node] is the URI of the node it
    was invoked on ([node.resourceUri || node]), if any. *)
Definition runAction (node : option Uri) (w : World) : World :=
  match node with
  | Some uri => record (RunAction uri) w
  | None =>
      match activeDocument w with
      | Some document =>
          let uri := TextDocument.uri document in
          let '(willRun, w) := save_before_run document w in
          if willRun then
            if bool_decide (scheme uri ∈ actionSchemes)
            then record (RunAction uri) w
            else w
          else w
      | None => w
      end
  end.

(** *** [code-for-ibmi.secret] *)

(** The command [code-for-ibmi.secret], for the connection named
    [currentConnectionName]: the secret storage after the call and the value
    the call resolves to. *)
Definition secret (currentConnectionName key newValue : string)
    (secrets : gmap string string) : gmap string string * option string :=
  let connectionKey := currentConnectionName +:+ "_" +:+ key in
  if negb (bool_decide (newValue = EmptyString))
  then (<[connectionKey := newValue]> secrets, Some newValue)
  else (secrets, secrets !! connectionKey).

(** *** An unsaved member in the active editor; the user will cancel *)

Definition unsaved_editor : World :=
  {| activeDocument :=
       Some {| TextDocument.uri :=
                 {| scheme := "member"; authority := EmptyString;
                    path := "/LIB/SRC/A.RPGLE"; query := EmptyString;
                    fragment := EmptyString |};
               TextDocument.isClosed := false; TextDocument.isDirty := true |};
     autoSaveBeforeAction := false; saves := true;
     replies := [Some "Cancel"]; log := [] |}.

End Commands.

(** ** The command [code-for-ibmi.debug.activeEditor] and [startDebug] *)

Module DebugLaunch.
Import VSCode.

Local Open Scope string_scope.

(** [toUpperCase], on strings of ASCII characters. *)
Definition upper_char (c : ascii) : ascii :=
  let n := N_of_ascii c in
  if (97 <=? n)%N && (n <=? 122)%N then ascii_of_N (n - 32) else c.

Fixpoint toUpperCase (s : string) : string :=
  match s with
  | EmptyString => EmptyString
  | String c rest => String (upper_char c) (toUpperCase rest)
  end.

(** [s.endsWith(suffix)] *)
Definition endsWith (s suffix : string) : bool :=
  let n := String.length s in
  let m := String.length suffix in
  (m <=? n)%nat && String.eqb (substring (n - m) m s) suffix.

(** The connection, as far as the debugger reads it. *)
Record IBMi := {
  currentConnectionName : string;
  currentUser : string;
  currentHost : string
}.

Record Configuration := { currentLibrary : string }.

Record QualifiedPath := {
  library : option string;
  object : option string
}.

Record DebugOptions := {
  opt_password : string;
  opt_library : string;
  opt_object : string
}.

(** The configuration handed to [vscode.debug.startDebugging]. *)
Record LaunchConfig := {
  type_ : string;
  request : string;
  name : string;
  user : string;
  password : string;
  host : string;
  port : string;
  secure : bool;
  ignoreCertificateErrors : bool;
  launch_library : string;
  program : string;
  startBatchJobCommand : string;
  updateProductionFiles : bool;
  trace : bool
}.

Record World := {
  (** [instance.getConnection()] and [instance.getConfig()] *)
  connection : option IBMi;
  configuration : option Configuration;
  (** the URI of the document in [vscode.window.activeTextEditor] *)
  activeEditor : option Uri;
  (** [context.secrets] *)
  secrets : gmap string string;
  (** what the user will type into the coming input boxes *)
  inputs : list (option string);
  (** the debug sessions started *)
  launched : list LaunchConfig
}.

(** Truthiness of [string | undefined]. *)
Definition truthy (s : option string) : bool :=
  match s with
  | Some s => negb (bool_decide (s = EmptyString))
  | None => false
  end.

Section WithPaths.

(** [connection.parserMemberPath(path)], of which the library and the
    member name are used, and [path.parse(path).name]. *)
Variable parserMemberPath : string → string * string.
Variable parsedName : string → string.

(** [getObjectFromUri(uri)] *)
Definition getObjectFromUri (w : World) (uri : Uri) : QualifiedPath :=
  match connection w, configuration w with
  | Some connection, Some configuration =>
      let qualifiedPath :=
        if bool_decide (scheme uri = "member") then
          let memberPath := parserMemberPath (path uri) in
          {| library := Some memberPath.1; object := Some memberPath.2 |}
        else if bool_decide (scheme uri = "streamfile")
                || bool_decide (scheme uri = "file") then
          {| library := Some (currentLibrary configuration);
             object := Some (parsedName (path uri)) |}
        else {| library := None; object := None |} in
      if truthy (object qualifiedPath) then
        let upper := toUpperCase (default EmptyString (object qualifiedPath)) in
        {| library := library qualifiedPath;
           object :=
             Some (if endsWith upper ".PGM"
                   then substring 0 (String.length upper - 4) upper
                   else upper) |}
      else qualifiedPath
  | _, _ => {| library := None; object := None |}
  end.

(** [getPassword()]: the stored password of the connection, or, when there
    is none, what the user types.  The connection is there
    ([connection!]). *)
Definition getPassword (connection : IBMi) (w : World) : option string * World :=
  let stored := secrets w !! (currentConnectionName connection +:+ "_password") in
  if truthy stored then (stored, w)
  else
    (mjoin (head (inputs w)),
     {| connection := DebugLaunch.connection w; configuration := configuration w;
        activeEditor := activeEditor w; secrets := secrets w;
        inputs := tail (inputs w); launched := launched w |}).

(** [startDebug(instance, options)], up to the configuration it starts. *)
Definition launchConfig (connection : IBMi) (options : DebugOptions) : LaunchConfig :=
  let port := "8005" in
  let updateProductionFiles := false in
  let enableDebugTracing := false in
  let secure := false in
  {| type_ := "IBMiDebug";
     request := "launch";
     name := "Remote debug: Launch a batch debug session";
     user := toUpperCase (currentUser connection);
     password := opt_password options;
     host := currentHost connection;
     port := port;
     secure := secure;
     ignoreCertificateErrors := negb secure;
     launch_library := toUpperCase (opt_library options);
     program := toUpperCase (opt_object options);
     startBatchJobCommand :=
       "SBMJOB CMD(CALL PGM(" +:+ opt_library options +:+ "/"
         +:+ opt_object options +:+ "))";
     updateProductionFiles := updateProductionFiles;
     trace := enableDebugTracing |}.

Definition startDebug (connection : IBMi) (options : DebugOptions) (w : World)
  : World :=
  {| connection := DebugLaunch.connection w; configuration := configuration w;
     activeEditor := activeEditor w; secrets := secrets w;
     inputs := inputs w;
     launched := (launched w ++ [launchConfig connection options])%list |}.

(** The command [code-for-ibmi.debug.activeEditor].  Without a connection
    [getPassword] fails on [connection!], and the command with it. *)
Definition debug_activeEditor (w : World) : World :=
  match activeEditor w with
  | Some uri =>
      let qualifiedObject := getObjectFromUri w uri in
      match connection w with
      | Some connection =>
          let '(password, w) := getPassword connection w in
          if truthy password && truthy (library qualifiedObject)
             && truthy (object qualifiedObject)
          then
            startDebug connection
              {| opt_password := default EmptyString password;
                 opt_library := default EmptyString (library qualifiedObject);
                 opt_object := default EmptyString (object qualifiedObject) |} w
          else w
      | None => w
      end
  | None => w
  end.

(** The schemes a program is resolved for. *)
Definition debugSchemes : list string := ["member"; "streamfile"; "file"].

End WithPaths.

End DebugLaunch.

Module ColourFacts.
Import Colour.

Lemma replaceCharCode_spec c : replaceCharCode c = true ↔ invalid_code c.
Proof.
  unfold replaceCharCode, invalid_code, NEW_LINE_NUMBERS.
  rewrite orb_true_iff, !andb_true_iff, negb_true_iff, bool_decide_eq_false.
  rewrite N.ltb_lt, !N.leb_le.
  rewrite !elem_of_cons, elem_of_nil. intuition lia.
Qed.

Lemma fix_code_valid c : replaceCharCode (fix_code c) = false.
Proof.
  unfold fix_code. destruct (replaceCharCode c) eqn:E; [reflexivity | exact E].
Qed.

Lemma loop_body_length content chars i :
  length (loop_body content chars i) = length chars.
Proof.
  unfold loop_body. destruct (charCodeAt content i) as [c|]; [|done].
  destruct (replaceCharCode c); [by rewrite length_insert | done].
Qed.

Lemma foldl_loop_length content (idx : list nat) chars :
  length (foldl (loop_body content) chars idx) = length chars.
Proof.
  revert chars. induction idx as [|i idx IH]; intros chars; simpl; [done|].
  by rewrite IH, loop_body_length.
Qed.

(** After the first [n] iterations, the indices below [n] hold the fixed
    character and the others still hold the original one. *)
Lemma loop_prefix_lookup content (n j : nat) :
  (n ≤ length content)%nat →
  foldl (loop_body content) (split content) (seq 0 n) !! j =
    if decide (j < n)%nat
    then (λ c, [fix_code c]) <$> content !! j
    else (λ c, [c]) <$> content !! j.
Proof.
  induction n as [|n IH]; intros Hn.
  - cbn [seq foldl]. destruct (decide (j < 0)%nat); [lia|].
    unfold split. by rewrite list_lookup_fmap.
  - rewrite seq_S, foldl_app. cbn [foldl Nat.add].
    specialize (IH ltac:(lia)).
    set (X := foldl (loop_body content) (split content) (seq 0 n)) in *.
    assert (HX : length X = length content).
    { unfold X. rewrite foldl_loop_length. unfold split. by rewrite length_fmap. }
    destruct (lookup_lt_is_Some_2 content n ltac:(lia)) as [c Hc].
    unfold loop_body, charCodeAt. rewrite Hc.
    destruct (decide (j = n)) as [->|Hne].
    + destruct (decide (n < S n)%nat); [|lia]. rewrite Hc. cbn [fmap option_fmap option_map].
      unfold fix_code. destruct (replaceCharCode c) eqn:E.
      * rewrite list_lookup_insert_eq by lia. done.
      * rewrite IH. destruct (decide (n < n)%nat); [lia|]. by rewrite Hc.
    + assert (Hdec : (if decide (j < S n)%nat
                      then (λ c0, [fix_code c0]) <$> content !! j
                      else (λ c0, [c0]) <$> content !! j)
                     = X !! j).
      { rewrite IH. destruct (decide (j < n)%nat), (decide (j < S n)%nat);
          try done; lia. }
      rewrite Hdec.
      destruct (replaceCharCode c); [|done].
      by rewrite list_lookup_insert_ne.
Qed.

Lemma loop_split content :
  loop content (split content) = (λ c, [fix_code c]) <$> content.
Proof.
  apply list_eq. intros j. unfold loop.
  rewrite loop_prefix_lookup by done.
  rewrite list_lookup_fmap.
  destruct (decide (j < length content)%nat) as [|Hge]; [done|].
  rewrite (lookup_ge_None_2 content j) by lia. done.
Qed.

Lemma join_singletons (f : N → N) (content : jsstring) :
  join ((λ c, [f c]) <$> content) = f <$> content.
Proof.
  unfold join. induction content as [|c content IH]; [done|].
  rewrite !fmap_cons. cbn [concat app]. by rewrite IH.
Qed.

Lemma replaceInvalidCharacters_fmap content :
  replaceInvalidCharacters content = fix_code <$> content.
Proof.
  unfold replaceInvalidCharacters. by rewrite loop_split, join_singletons.
Qed.

Lemma fix_code_idemp c : fix_code (fix_code c) = fix_code c.
Proof. unfold fix_code at 1. by rewrite fix_code_valid. Qed.

(** C9.  [replaceInvalidCharacters] keeps the length of its input; at every
    index the code unit becomes a space (32) exactly when it is below 32 and
    neither 10 nor 13, or between 128 and 157, and is unchanged otherwise;
    the function is idempotent and [replaceCharCode] flags no code unit of
    its output. *)
Theorem replaceInvalidCharacters_correct (content : jsstring) :
  length (replaceInvalidCharacters content) = length content
  ∧ (∀ (i : nat) (c : N), content !! i = Some c →
       (invalid_code c → replaceInvalidCharacters content !! i = Some 32)
       ∧ (¬ invalid_code c → replaceInvalidCharacters content !! i = Some c))
  ∧ replaceInvalidCharacters (replaceInvalidCharacters content)
    = replaceInvalidCharacters content
  ∧ Forall (λ c, replaceCharCode c = false) (replaceInvalidCharacters content).
Proof.
  rewrite !replaceInvalidCharacters_fmap. repeat split.
  - by rewrite length_fmap.
  - intros Hinv. rewrite list_lookup_fmap, H. simpl. unfold fix_code.
    apply replaceCharCode_spec in Hinv. by rewrite Hinv.
  - intros Hinv. rewrite list_lookup_fmap, H. simpl. unfold fix_code.
    destruct (replaceCharCode c) eqn:E; [|done].
    apply replaceCharCode_spec in E. done.
  - rewrite <- list_fmap_compose. apply list_fmap_ext.
    intros i c _. simpl. apply fix_code_idemp.
  - apply Forall_fmap, Forall_forall. intros c _. simpl. apply fix_code_valid.
Qed.

End ColourFacts.
(** * Properties of [ConfigFile] *)

Module ConfigFileFacts.
Import ConfigFile MiniJSON.

Local Open Scope string_scope.

Section Generic.
Variable JSON_parse : string → option json.

Lemma get_cached vscode currentWorkspace this :
  truthy (serverData this) = true →
  get JSON_parse vscode currentWorkspace this
  = (this, Returned (serverData this)).
Proof. intros Ht. unfold get. by rewrite Ht. Qed.

Lemma read_config_file_serverData vscode acc file :
  serverData (read_config_file JSON_parse vscode acc file).2 = serverData acc.2.
Proof.
  destruct acc as [wc this]. unfold read_config_file.
  by destruct (JSON_parse _).
Qed.

Lemma load_workspace_serverData vscode currentWorkspace this :
  serverData (load_workspace JSON_parse vscode currentWorkspace this).2
  = serverData this.
Proof.
  unfold load_workspace.
  destruct (workspaceFolders vscode), currentWorkspace; try done.
  generalize (take 1 (findFiles vscode s ("**/" +:+ workspaceFile this))).
  intros files.
  assert (G : ∀ acc, serverData (foldl (read_config_file JSON_parse vscode) acc files).2
                     = serverData acc.2).
  { induction files as [|f files IH]; intros acc; [done|].
    cbn [foldl]. by rewrite IH, read_config_file_serverData. }
  by rewrite G.
Qed.

(** Past the early return of line 60 the cached server data is falsy, so
    the array-merging branch of lines 86-94 is never taken. *)
Lemma combine_without_cache this workspaceConfig :
  truthy (serverData this) = false →
  combine this workspaceConfig
  = Returned (js_or workspaceConfig (serverData this)).
Proof.
  intros Hf. unfold combine. rewrite Hf.
  by rewrite andb_false_r.
Qed.

(** Without a workspace folder to search, [get] leaves the load state
    alone. *)
Lemma get_without_folder vscode this :
  truthy (serverData this) = false →
  serverData this = None →
  get JSON_parse vscode None this = (this, Returned None).
Proof.
  intros Hf Hn. unfold get. rewrite Hf. unfold load_workspace.
  destruct (workspaceFolders vscode); cbn; by rewrite Hn.
Qed.

(** What [loadFromServer] does when the server file is there and its
    body does not parse. *)
Lemma loadFromServer_unparsable content this :
  hasServerFile this = true →
  testStreamFile content (serverFile this) "r" = true →
  JSON_parse (downloadStreamfileRaw content (serverFile this)) = None →
  loadFromServer JSON_parse content this
  = let failed := set_state_server failed_to_parse this in
    if rejects_undefined this
    then (failed, Thrown ValidationError)
    else (set_serverData None failed, Returned ()).
Proof.
  intros Hhas Hfile Hparse.
  unfold loadFromServer, rejects_undefined, parse_server_body.
  rewrite Hhas. cbn [serverFile set_state_server]. rewrite Hfile, Hparse.
  cbn [validateAndCleanInPlace set_state_server].
  destruct (validateAndCleanInPlace this) as [validate|]; [|done].
  by destruct (validate None).
Qed.

End Generic.

Import ConfigScenarios.

(** C1.  With [mergeArrays] off, a server copy [{"a":1}] loaded successfully
    and a workspace copy [{"a":2}] that parses, [get] does not return the
    workspace document: the early return on the cached server data hands
    back the server document, and the workspace is never read. *)
Theorem get_returns_server_document_despite_workspace :
  let content := server_with "/etc/.vscode/actions.json" (text_a "1") in
  let vscode := vscode_with [(".vscode/actions.json", text_a "2")] in
  let loaded := (loadFromServer parseJSON content actions).1 in
  let answer := get parseJSON vscode (Some "project") loaded in
  mergeArrays loaded = false
  ∧ server (getState loaded) = ok
  ∧ findFiles vscode "project" ("**/" +:+ workspaceFile loaded)
    = [".vscode/actions.json"]
  ∧ parseJSON (readFile vscode ".vscode/actions.json") = Some (doc_a 2)
  ∧ answer.2 = Returned (Some (doc_a 1))
  ∧ answer.2 ≠ Returned (Some (doc_a 2))
  ∧ workspace (getState answer.1) = not_loaded.
Proof.
  cbv zeta. repeat apply conj; try (vm_compute; reflexivity).
  vm_compute. discriminate.
Qed.

(** C2.  With [mergeArrays] on, a server copy [{"K":[3]}] loaded
    successfully and a workspace copy [{"K":[1,2]}], the document [get]
    returns is the server document: its [K] is [[3]], not [[1,2,3]], and the
    document is not the concatenated array either. *)
Theorem get_does_not_merge_arrays :
  let content := server_with "/etc/.vscode/actions.json" text_K_3 in
  let vscode := vscode_with [(".vscode/actions.json", text_K_12)] in
  let loaded :=
    (loadFromServer parseJSON content (set_mergeArrays true actions)).1 in
  let answer := get parseJSON vscode (Some "project") loaded in
  mergeArrays loaded = true
  ∧ server (getState loaded) = ok
  ∧ serverData loaded = Some (doc_K [3]%Z)
  ∧ parseJSON (readFile vscode ".vscode/actions.json") = Some (doc_K [1; 2]%Z)
  ∧ answer.2 = Returned (Some (doc_K [3]%Z))
  ∧ (∀ document, answer.2 = Returned document →
       getProp document "K" = Some (JArr [JNum 3])
       ∧ getProp document "K" ≠ Some (JArr [JNum 1; JNum 2; JNum 3])
       ∧ document ≠ Some (JArr [JNum 1; JNum 2; JNum 3])).
Proof.
  cbv zeta. repeat apply conj; try (vm_compute; reflexivity).
  intros document. vm_compute. intros [= <-].
  repeat apply conj; [reflexivity | discriminate | discriminate].
Qed.

(** The merging loop on its own, were it reached with these two documents,
    replaces the whole document by the concatenated array. *)
Lemma combine_K :
  combine (set_mergeArrays true (set_serverData (Some (doc_K [3]%Z)) actions))
          (Some (doc_K [1; 2]%Z))
  = Returned (Some (JArr [JNum 1; JNum 2; JNum 3])).
Proof. reflexivity. Qed.

(** C3, as stated, fails: a config loaded from [{"a":1}] loses its cached
    data when the server file is found malformed on the next load. *)
Lemma loadFromServer_clobbers_cache :
  let good := server_with "/etc/.vscode/actions.json" (text_a "1") in
  let bad := server_with "/etc/.vscode/actions.json" "{" in
  let loaded := (loadFromServer parseJSON good actions).1 in
  serverData loaded = Some (doc_a 1)
  ∧ ¬ keeps_cache_on_parse_failure parseJSON bad loaded.
Proof.
  split; [reflexivity|].
  intros Hkeeps.
  destruct (Hkeeps eq_refl eq_refl eq_refl) as [_ Hsame].
  vm_compute in Hsame. discriminate.
Qed.

(** C3, amended.  When the server file exists and its body does not parse,
    [loadFromServer] records [failed_to_parse]; it then clears the cached
    server data, unless the installed validator throws on the missing
    config, in which case the call fails and the cache is left as it was. *)
Theorem loadFromServer_parse_failure JSON_parse content this :
  hasServerFile this = true →
  testStreamFile content (serverFile this) "r" = true →
  JSON_parse (downloadStreamfileRaw content (serverFile this)) = None →
  let after := loadFromServer JSON_parse content this in
  server (state after.1) = failed_to_parse
  ∧ workspace (state after.1) = workspace (state this)
  ∧ (rejects_undefined this = false →
       after.2 = Returned () ∧ serverData after.1 = None)
  ∧ (rejects_undefined this = true →
       after.2 = Thrown ValidationError ∧ serverData after.1 = serverData this).
Proof.
  intros Hhas Hfile Hparse after. subst after.
  rewrite loadFromServer_unparsable by done. cbv zeta.
  destruct (rejects_undefined this); cbn; repeat apply conj; done.
Qed.

Lemma loadFromServer_parse_failure_witness :
  let bad := server_with "/etc/.vscode/actions.json" "{" in
  let loaded :=
    (loadFromServer parseJSON
       (server_with "/etc/.vscode/actions.json" (text_a "1")) actions).1 in
  let after := loadFromServer parseJSON bad loaded in
  server (state after.1) = failed_to_parse
  ∧ workspace (state after.1) = workspace (state loaded)
  ∧ (rejects_undefined loaded = false →
       after.2 = Returned () ∧ serverData after.1 = None)
  ∧ (rejects_undefined loaded = true →
       after.2 = Thrown ValidationError ∧ serverData after.1 = serverData loaded).
Proof.
  exact (loadFromServer_parse_failure parseJSON
           (server_with "/etc/.vscode/actions.json" "{")
           (loadFromServer parseJSON
              (server_with "/etc/.vscode/actions.json" (text_a "1")) actions).1
           eq_refl eq_refl eq_refl).
Defined.

(** With a validator that throws on the missing config, the failed load
    keeps the cache, and fails. *)
Example loadFromServer_validator_keeps_cache :
  let good := server_with "/etc/.vscode/actions.json" (text_a "1") in
  let bad := server_with "/etc/.vscode/actions.json" "{" in
  let validated := set_validateAndCleanInPlace (Some objects_only) actions in
  let loaded := (loadFromServer parseJSON good validated).1 in
  let after := loadFromServer parseJSON bad loaded in
  serverData loaded = Some (doc_a 1)
  ∧ after.2 = Thrown ValidationError
  ∧ server (state after.1) = failed_to_parse
  ∧ serverData after.1 = Some (doc_a 1).
Proof. cbv zeta. repeat apply conj; vm_compute; reflexivity. Qed.

(** C4.  After the server body [{] failed to parse, [get] on a workspace
    folder that holds no config file returns [undefined], but it has
    overwritten the server state: [getState().server] is then [no_exist],
    not [failed_to_parse]. *)
Theorem get_overwrites_server_state :
  let content := server_with "/etc/.vscode/actions.json" "{" in
  let vscode := vscode_with [] in
  let loaded := (loadFromServer parseJSON content actions).1 in
  let answer := get parseJSON vscode (Some "project") loaded in
  server (getState loaded) = failed_to_parse
  ∧ findFiles vscode "project" ("**/" +:+ workspaceFile loaded) = []
  ∧ answer.2 = Returned None
  ∧ server (getState answer.1) = no_exist.
Proof. cbv zeta. repeat apply conj; vm_compute; reflexivity. Qed.

(** When [get] is given no workspace folder to search, the claim of C4
    holds: the state recorded by the failed load is still there. *)
Lemma get_after_failed_parse_without_folder JSON_parse content vscode this :
  hasServerFile this = true →
  testStreamFile content (serverFile this) "r" = true →
  JSON_parse (downloadStreamfileRaw content (serverFile this)) = None →
  rejects_undefined this = false →
  let loaded := (loadFromServer JSON_parse content this).1 in
  let answer := get JSON_parse vscode None loaded in
  answer.2 = Returned None ∧ server (getState answer.1) = failed_to_parse.
Proof.
  intros Hhas Hfile Hparse Hrej loaded answer. subst answer loaded.
  rewrite loadFromServer_unparsable, Hrej by done. cbv zeta. cbn [fst].
  by rewrite get_without_folder.
Qed.

End ConfigFileFacts.

(** * Properties of the URI helpers *)

Module UrisFacts.
Import VSCode Uris.

Local Open Scope string_scope.

Lemma lower_char_idemp c : lower_char (lower_char c) = lower_char c.
Proof. by destruct c as [[] [] [] [] [] [] [] []]. Qed.

Lemma toLowerCase_idemp s : toLowerCase (toLowerCase s) = toLowerCase s.
Proof.
  induction s as [|c s IH]; [done|].
  cbn [toLowerCase]. by rewrite lower_char_idemp, IH.
Qed.

Lemma toLowerCase_app s t :
  toLowerCase (s +:+ t) = toLowerCase s +:+ toLowerCase t.
Proof.
  induction s as [|c s IH]; [done|].
  simpl. by rewrite IH.
Qed.



(** A string is cut at its first colon in one way only. *)
Lemma split_at_colon s1 s2 x y :
  colon_free s1 → colon_free s2 →
  s1 +:+ ":" +:+ x = s2 +:+ ":" +:+ y →
  s1 = s2 ∧ x = y.
Proof.
  revert s2. induction s1 as [|c1 s1 IH]; intros [|c2 s2]; simpl.
  - intros _ _ Heq. injection Heq as Heq. by simpl in Heq.
  - intros _ [Hc _] Heq. injection Heq as Hc2 _. by destruct Hc.
  - intros [Hc _] _ Heq. injection Heq as Hc1 _. by destruct Hc.
  - intros [_ H1] [_ H2] Heq. injection Heq as -> Heq.
    destruct (IH s2 H1 H2 Heq) as [-> ->]. done.
Qed.

Lemma isCaseSensitive_spec uri :
  isCaseSensitive uri = bool_decide (under_case_sensitive_root uri).
Proof.
  unfold isCaseSensitive.
  destruct (decide (under_case_sensitive_root uri)) as [[Hs Ht]|Hnot].
  - rewrite (bool_decide_eq_true_2 (under_case_sensitive_root uri)) by done.
    by rewrite Ht, bool_decide_eq_true_2.
  - rewrite (bool_decide_eq_false_2 (under_case_sensitive_root uri)) by done.
    apply andb_false_iff. rewrite bool_decide_eq_false.
    destruct (test_prefix_i "/QOpenSys/" (path uri)) eqn:Ht; [left|by right].
    intros Hs. by apply Hnot.
Qed.

(** For a lower-case scheme, the string that is compared is the scheme, a
    colon and the normalized path. *)
Lemma uriStringWithoutFragment_normalized uri :
  toLowerCase (scheme uri) = scheme uri →
  uriStringWithoutFragment uri = scheme uri +:+ ":" +:+ normalized_path uri.
Proof.
  intros Hlow. unfold uriStringWithoutFragment, normalized_path.
  rewrite isCaseSensitive_spec.
  destruct (decide (under_case_sensitive_root uri)) as [Hroot|Hroot].
  - by rewrite bool_decide_eq_true_2.
  - rewrite bool_decide_eq_false_2 by done.
    by rewrite !toLowerCase_app, Hlow.
Qed.

Lemma areEquivalentUris_iff a b :
  canonical_scheme (scheme a) → canonical_scheme (scheme b) →
  areEquivalentUris a b = true ↔ same_resource a b.
Proof.
  intros [Hla Hca] [Hlb Hcb]. unfold areEquivalentUris, same_resource.
  rewrite bool_decide_eq_true, !uriStringWithoutFragment_normalized by done.
  split.
  - intros Heq. by apply split_at_colon.
  - intros [-> ->]. done.
Qed.


Lemma resource_schemes_canonical s :
  s ∈ resource_schemes → canonical_scheme s.
Proof.
  unfold resource_schemes. rewrite !elem_of_cons, elem_of_nil.
  intros [->|[->|[->|[->|[]]]]]; (split; [reflexivity | cbn; naive_solver]).
Qed.



(** Members are compared without regard to case, stream files under
    [/QOpenSys/] are not. *)
Example member_case_is_ignored :
  areEquivalentUris
    {| scheme := "member"; authority := EmptyString;
       path := "/LIB/QRPGLESRC/PGM.RPGLE"; query := "readonly=true";
       fragment := EmptyString |}
    {| scheme := "member"; authority := EmptyString;
       path := "/lib/qrpglesrc/pgm.rpgle"; query := EmptyString;
       fragment := EmptyString |} = true.
Proof. reflexivity. Qed.

(** The comparison lowercases the scheme with the path, so that a scheme
    written in capitals is the same scheme to it. *)
Example scheme_case_is_ignored :
  areEquivalentUris
    {| scheme := "MEMBER"; authority := EmptyString;
       path := "/LIB/QRPGLESRC/PGM.RPGLE"; query := EmptyString;
       fragment := EmptyString |}
    {| scheme := "member"; authority := EmptyString;
       path := "/lib/qrpglesrc/pgm.rpgle"; query := EmptyString;
       fragment := EmptyString |} = true.
Proof. reflexivity. Qed.

Example QOpenSys_case_matters :
  areEquivalentUris readonly_copy
    {| scheme := "streamfile"; authority := EmptyString;
       path := "/QOpenSys/home/foo.txt"; query := EmptyString;
       fragment := EmptyString |} = false.
Proof. reflexivity. Qed.

End UrisFacts.

(** * Properties of [disconnect] and [onDisconnected] *)

Module InstantiateFacts.
Import VSCode Instantiate.

Local Open Scope string_scope.

(** ** [disconnect] *)

(** Once the user has declined, the loop runs to its end in silence. *)
Lemma check_documents_declined documents w :
  check_documents documents false w = (false, w).
Proof.
  induction documents as [|document documents IH]; [done|].
  cbn [check_documents]. rewrite IH.
  by repeat match goal with |- context [if ?b then _ else _] => destruct b end.
Qed.

(** The loop asks about the first unsaved remote document, and the answer
    is its result. *)
Lemma check_documents_first documents document w :
  find unsaved_remote documents = Some document →
  check_documents documents true w
  = let asked :=
      showErrorMessage unsavedMessage disconnectAnyway
        (showTextDocument document w) in
    (truthy asked.1, asked.2).
Proof.
  revert w. induction documents as [|d documents IH]; intros w; [done|].
  cbn [find check_documents]. unfold unsaved_remote at 1.
  destruct (negb (TextDocument.isClosed d)
            && bool_decide (scheme (TextDocument.uri d) ∈ remoteSchemes)) eqn:Hremote;
    cbn [andb]; [|by apply IH].
  destruct (TextDocument.isDirty d); [|by apply IH].
  intros [= ->]. cbv zeta.
  destruct (showErrorMessage _ _ _) as [answer w'] eqn:Hasked. cbn [fst snd].
  destruct (truthy answer); [done|]. apply check_documents_declined.
Qed.

Lemma find_unsaved_remote documents :
  Exists (λ d, unsaved_remote d = true) documents →
  ∃ document, find unsaved_remote documents = Some document
              ∧ document ∈ documents ∧ unsaved_remote document = true.
Proof.
  induction 1 as [d documents Hd|d documents _ IH]; cbn [find].
  - rewrite Hd. exists d. split; [done|]. split; [apply list_elem_of_here|done].
  - destruct (unsaved_remote d) eqn:Hd.
    + exists d. split; [done|]. split; [apply list_elem_of_here|done].
    + destruct IH as (document & ? & ? & ?). exists document.
      split; [done|]. split; [by apply list_elem_of_further|done].
Qed.

(** C6.  When some open member, streamfile or object document is unsaved,
    [disconnect] shows the first such document and asks exactly once.  If the
    user clicks "Disconnect anyway" the result is [true] and the connection,
    if there is one, is ended; if the user declines the result is [false],
    [connection.end()] is not called and nothing else happens. *)
Theorem disconnect_asks_once w :
  Exists (λ d, unsaved_remote d = true) (textDocuments w) →
  ∃ document,
    find unsaved_remote (textDocuments w) = Some document
    ∧ let accepted := next_click w in
      let after := disconnect w in
      after.1 = accepted
      ∧ log after.2
        = (log w
           ++ [ShowTextDocument document;
               ShowErrorMessage unsavedMessage [disconnectAnyway]]
           ++ (if accepted && connected w then [ConnectionEnd] else []))%list
      ∧ connected after.2 = (if accepted then false else connected w)
      ∧ textDocuments after.2 = textDocuments w.
Proof.
  intros Hsome.
  destruct (find_unsaved_remote _ Hsome) as (document & Hfind & _ & _).
  exists document. split; [done|]. cbv zeta. unfold disconnect.
  rewrite (check_documents_first _ _ _ Hfind). cbv zeta.
  unfold showErrorMessage, showTextDocument, record, next_click.
  cbn [fst snd clicks log connected textDocuments].
  assert (Hbutton : truthy (Some disconnectAnyway) = true) by reflexivity.
  destruct (clicks w) as [|[] rest]; rewrite ?Hbutton; cbn [truthy];
    destruct (connected w); cbn; rewrite <- ?app_assoc; done.
Qed.

Lemma disconnect_asks_once_witness :
  ∃ document,
    find unsaved_remote (textDocuments three_documents) = Some document
    ∧ let accepted := next_click three_documents in
      let after := disconnect three_documents in
      after.1 = accepted
      ∧ log after.2
        = (log three_documents
           ++ [ShowTextDocument document;
               ShowErrorMessage unsavedMessage [disconnectAnyway]]
           ++ (if accepted && connected three_documents
               then [ConnectionEnd] else []))%list
      ∧ connected after.2 = (if accepted then false else connected three_documents)
      ∧ textDocuments after.2 = textDocuments three_documents.
Proof.
  apply (disconnect_asks_once three_documents).
  apply Exists_cons_tl, Exists_cons_hd. reflexivity.
Defined.

(** ** [onDisconnected] *)

Lemma filter_ext_in {A} (P Q : A → Prop)
    `{!∀ x, Decision (P x), !∀ x, Decision (Q x)} (l : list A) :
  (∀ x, x ∈ l → P x ↔ Q x) → filter P l = filter Q l.
Proof.
  induction l as [|x l IH]; intros Hext; [done|].
  rewrite !filter_cons.
  rewrite IH by (intros y Hy; apply Hext; by apply list_elem_of_further).
  pose proof (Hext x (list_elem_of_here _ _)) as Hx.
  destruct (decide (P x)), (decide (Q x)); tauto || done.
Qed.

Lemma filter_all {A} (P : A → Prop) `{!∀ x, Decision (P x)} (l : list A) :
  (∀ x, x ∈ l → P x) → filter P l = l.
Proof.
  induction l as [|x l IH]; intros Hall; [done|].
  rewrite filter_cons_True by apply Hall, list_elem_of_here.
  rewrite IH; [done|]. intros y Hy. by apply Hall, list_elem_of_further.
Qed.

Lemma close_ids_nil groups : close_ids [] groups = groups.
Proof.
  unfold close_ids. rewrite <- (list_fmap_id groups) at 2.
  apply list_fmap_ext. intros _ [ts] _. cbn. f_equal.
  apply filter_all. intros t _. apply not_elem_of_nil.
Qed.

Lemma close_ids_app ids1 ids2 groups :
  close_ids ids2 (close_ids ids1 groups) = close_ids (ids1 ++ ids2) groups.
Proof.
  unfold close_ids. rewrite <- list_fmap_compose.
  apply list_fmap_ext. intros _ [ts] _. cbn. f_equal.
  rewrite list_filter_filter. apply list_filter_iff.
  intros t. rewrite not_elem_of_app. tauto.
Qed.

Lemma close_tabGroups tab w :
  tabGroups (close tab w) = close_ids [Tab.id tab] (tabGroups w).
Proof.
  unfold close, close_ids. cbn. apply list_fmap_ext. intros _ [ts] _. cbn.
  f_equal. apply list_filter_iff. intros t.
  by rewrite list_elem_of_singleton.
Qed.

Lemma visit_tabs_tabGroups ts w :
  tabGroups (foldl visit_tab w ts)
  = close_ids (Tab.id <$> filter (λ tab, is_remote_text_tab tab = true) ts)
              (tabGroups w).
Proof.
  revert w. induction ts as [|t ts IH]; intros w.
  - by rewrite close_ids_nil.
  - cbn [foldl]. rewrite IH. unfold visit_tab. rewrite filter_cons.
    destruct (is_remote_text_tab t) eqn:Hremote.
    + rewrite decide_True by done.
      by rewrite close_tabGroups, close_ids_app.
    + by rewrite decide_False by done.
Qed.

Lemma visit_tabs_shownBarItems ts w :
  shownBarItems (foldl visit_tab w ts) = shownBarItems w.
Proof.
  revert w. induction ts as [|t ts IH]; intros w; [done|].
  cbn [foldl]. rewrite IH. unfold visit_tab.
  by destruct (is_remote_text_tab t).
Qed.

Lemma visit_groups_tabGroups groups w :
  tabGroups (foldl visit_group w groups)
  = close_ids (groups ≫= remote_text_ids) (tabGroups w).
Proof.
  revert w. induction groups as [|g groups IH]; intros w.
  - by rewrite close_ids_nil.
  - cbn [foldl]. rewrite IH. unfold visit_group.
    rewrite visit_tabs_tabGroups, close_ids_app. done.
Qed.

Lemma visit_groups_shownBarItems groups w :
  shownBarItems (foldl visit_group w groups) = shownBarItems w.
Proof.
  revert w. induction groups as [|g groups IH]; intros w; [done|].
  cbn [foldl]. rewrite IH. apply visit_tabs_shownBarItems.
Qed.

Lemma onDisconnected_tabGroups w :
  tabGroups (onDisconnected w) = close_ids (closed_ids (tabGroups w)) (tabGroups w).
Proof. unfold onDisconnected. cbn. apply visit_groups_tabGroups. Qed.

Lemma onDisconnected_shownBarItems w :
  shownBarItems (onDisconnected w) = [].
Proof.
  unfold onDisconnected. cbn. rewrite visit_groups_shownBarItems.
  induction (shownBarItems w) as [|item items IH]; [done|].
  rewrite !filter_cons.
  destruct item; repeat (case_decide; try done; rewrite ?filter_cons).
Qed.

(** Distinct identities: a tab has one place. *)
Lemma same_id_same_tab (ts : list Tab.t) t t' :
  NoDup (Tab.id <$> ts) → t ∈ ts → t' ∈ ts → Tab.id t = Tab.id t' → t = t'.
Proof.
  induction ts as [|x ts IH]; [by intros _ ?%elem_of_nil|].
  rewrite fmap_cons, NoDup_cons, !elem_of_cons.
  intros [Hfresh Hnodup] [->|Ht] [->|Ht'] Hid; [done| | |by apply IH].
  - destruct Hfresh. rewrite Hid. by apply list_elem_of_fmap_2.
  - destruct Hfresh. rewrite <- Hid. by apply list_elem_of_fmap_2.
Qed.

Lemma tab_owner groups g g' t t' :
  NoDup (tab_ids groups) →
  g ∈ groups → g' ∈ groups → t ∈ tabs g → t' ∈ tabs g' →
  Tab.id t = Tab.id t' → g = g' ∧ t = t'.
Proof.
  unfold tab_ids. induction groups as [|h groups IH]; [by intros _ ?%elem_of_nil|].
  rewrite bind_cons, NoDup_app, !elem_of_cons.
  intros (Hh & Hdisjoint & Hrest) [->|Hg] [->|Hg'] Ht Ht' Hid.
  - split; [done|]. by apply (same_id_same_tab (tabs h)).
  - destruct (Hdisjoint (Tab.id t)); [by apply list_elem_of_fmap_2|].
    apply list_elem_of_bind. exists g'. split; [|done].
    rewrite Hid. by apply list_elem_of_fmap_2.
  - destruct (Hdisjoint (Tab.id t')); [by apply list_elem_of_fmap_2|].
    apply list_elem_of_bind. exists g. split; [|done].
    rewrite <- Hid. by apply list_elem_of_fmap_2.
  - by apply IH.
Qed.

(** Which tabs are asked to be closed. *)
Lemma closed_ids_spec groups g t :
  NoDup (tab_ids groups) → g ∈ groups → t ∈ tabs g →
  Tab.id t ∈ closed_ids groups
  ↔ has_dirty_tab g = false ∧ is_remote_text_tab t = true.
Proof.
  intros Hnodup Hg Ht. unfold closed_ids, remote_text_ids.
  rewrite list_elem_of_bind. split.
  - intros (g' & Hin & Hg'). apply list_elem_of_filter in Hg' as [Hclean Hg'].
    apply list_elem_of_fmap in Hin as (t' & Hid & Ht').
    apply list_elem_of_filter in Ht' as [Hremote Ht'].
    destruct (tab_owner groups g g' t t' Hnodup Hg Hg' Ht Ht' Hid) as [-> ->].
    done.
  - intros [Hclean Hremote]. exists g. split.
    + apply list_elem_of_fmap_2. by apply list_elem_of_filter.
    + by apply list_elem_of_filter.
Qed.

Lemma close_ids_group_after groups :
  NoDup (tab_ids groups) →
  close_ids (closed_ids groups) groups = group_after <$> groups.
Proof.
  intros Hnodup. unfold close_ids. apply list_fmap_ext.
  intros i g Hg%list_elem_of_lookup_2. unfold group_after.
  destruct (has_dirty_tab g) eqn:Hdirty.
  - destruct g as [ts]. cbn in *. f_equal. apply filter_all.
    intros t Ht. rewrite (closed_ids_spec groups _ t Hnodup Hg Ht).
    cbn. rewrite Hdirty. by intros [? _].
  - f_equal. apply filter_ext_in. intros t Ht.
    rewrite (closed_ids_spec groups g t Hnodup Hg Ht), Hdirty.
    destruct (is_remote_text_tab t).
    + split; [intros H; by destruct H | done].
    + split; [done | by intros _ [_ ?]].
Qed.

(** C7, as stated, fails: with one tab group holding an unsaved member and a
    saved one (the situation after "Disconnect anyway"), the saved member tab
    is not closed. *)
Lemma clean_tab_beside_dirty_tab_stays_open :
  tabGroups (onDisconnected two_members) = tabGroups two_members
  ∧ is_remote_text_tab saved_tab = true
  ∧ Tab.isDirty saved_tab = false
  ∧ ¬ closes_every_clean_remote_tab two_members.
Proof.
  assert (Hopen : ∀ w, tabGroups w = tabGroups two_members → open_in saved_tab w).
  { intros w Hw. exists {| tabs := [unsaved_tab; saved_tab] |}. rewrite Hw.
    split; [apply list_elem_of_here|].
    apply list_elem_of_further, list_elem_of_here. }
  repeat apply conj; try reflexivity.
  intros Hcloses. apply (Hcloses saved_tab); try reflexivity; by apply Hopen.
Qed.

(** C7, amended.  [onDisconnected] leaves a tab group that has an unsaved tab
    as it is, and closes, in every other group, the text tabs of the member,
    streamfile and object schemes and nothing else; an unsaved tab therefore
    stays open, and so does a saved one that shares its group with an unsaved
    one.  The four status bar items are hidden. *)
Theorem onDisconnected_closes_tabs_of_clean_groups w :
  NoDup (tab_ids (tabGroups w)) →
  tabGroups (onDisconnected w) = group_after <$> tabGroups w
  ∧ (∀ tab, open_in tab w → Tab.isDirty tab = true →
       open_in tab (onDisconnected w))
  ∧ shownBarItems (onDisconnected w) = [].
Proof.
  intros Hnodup.
  assert (Hgroups : tabGroups (onDisconnected w) = group_after <$> tabGroups w).
  { by rewrite onDisconnected_tabGroups, close_ids_group_after. }
  split; [done|]. split; [|apply onDisconnected_shownBarItems].
  intros tab (g & Hg & Htab) Hdirty. exists (group_after g). split.
  - rewrite Hgroups. by apply list_elem_of_fmap_2.
  - unfold group_after. replace (has_dirty_tab g) with true; [done|].
    symmetry. apply existsb_exists. exists tab.
    split; [by apply list_elem_of_In|done].
Qed.

Lemma onDisconnected_closes_tabs_of_clean_groups_witness :
  tabGroups (onDisconnected two_members) = group_after <$> tabGroups two_members
  ∧ (∀ tab, open_in tab two_members → Tab.isDirty tab = true →
       open_in tab (onDisconnected two_members))
  ∧ shownBarItems (onDisconnected two_members) = [].
Proof.
  apply (onDisconnected_closes_tabs_of_clean_groups two_members).
  simpl. repeat constructor; rewrite ?elem_of_cons, ?elem_of_nil; lia.
Defined.

End InstantiateFacts.

(** * Properties of the debug bootstrap *)

Module DebugFacts.
Import Debug.

Local Open Scope string_scope.

Lemma setup_local_log force w c :
  connection w = Some c → debugPTFInstalled w = true →
  log (setup_local force w)
  = (log w ++ if localCertificate w && negb force
              then [SetContext localCertContext true]
              else download_events w)%list.
Proof.
  intros Hc Hptf. unfold setup_local, download_events, checkLocalExists.
  rewrite Hc, Hptf.
  destruct (localCertificate w && negb force); [done|].
  unfold downloadToLocal, record. cbn [downloadFails log].
  destruct (downloadFails w); cbn; by rewrite <- !app_assoc.
Qed.

(** C8.  With a connection and the debug PTF installed, the local step skips
    the download exactly when a local certificate exists and it is not
    forced; the remote step, after it has generated the remote certificates,
    runs the local step forced, so that the download happens whether or not a
    local certificate exists; when the remote certificates were already there
    and a local one exists, nothing is downloaded. *)
Theorem local_step_downloads_unless_present_and_not_fresh w c :
  connection w = Some c →
  is_Some (remoteFeatures c !! "startDebugService.sh") →
  (∀ force,
     log (setup_local force w)
     = (log w ++ if localCertificate w && negb force
                 then [SetContext localCertContext true]
                 else download_events w)%list)
  ∧ (remoteCertificate w = false → continues w = true → setupError w = None →
       log (setup_remote w)
       = (log w ++ [AskSetup; CertificatesSetup; SetContext remoteCertContext true]
                ++ download_events w)%list)
  ∧ (remoteCertificate w = true → localCertificate w = true →
       log (setup_remote w)
       = (log w ++ [SetContext remoteCertContext true;
                    SetContext localCertContext true])%list).
Proof.
  intros Hc Hfeature.
  assert (Hptf : debugPTFInstalled w = true).
  { unfold debugPTFInstalled. rewrite Hc. by apply bool_decide_eq_true. }
  repeat apply conj.
  - intros force. by apply (setup_local_log force w c).
  - intros Hremote Hcontinue Hsetup.
    unfold setup_remote, checkRemoteExists, certificates_setup.
    rewrite Hc, Hptf, Hremote, Hcontinue. cbn [record setupError]. rewrite Hsetup.
    rewrite (setup_local_log true _ c); [|done..].
    cbn. rewrite andb_false_r. unfold download_events. cbn.
    by rewrite <- !app_assoc.
  - intros Hremote Hlocal.
    unfold setup_remote, checkRemoteExists.
    rewrite Hc, Hptf, Hremote.
    rewrite (setup_local_log false _ c); [|done..].
    cbn. rewrite Hlocal. cbn. by rewrite <- !app_assoc.
Qed.

Lemma local_step_downloads_witness :
  (∀ force,
     log (setup_local force fresh_system)
     = (log fresh_system ++ if localCertificate fresh_system && negb force
                            then [SetContext localCertContext true]
                            else download_events fresh_system)%list)
  ∧ (remoteCertificate fresh_system = false → continues fresh_system = true →
     setupError fresh_system = None →
       log (setup_remote fresh_system)
       = (log fresh_system
          ++ [AskSetup; CertificatesSetup; SetContext remoteCertContext true]
          ++ download_events fresh_system)%list)
  ∧ (remoteCertificate fresh_system = true → localCertificate fresh_system = true →
       log (setup_remote fresh_system)
       = (log fresh_system ++ [SetContext remoteCertContext true;
                               SetContext localCertContext true])%list).
Proof.
  eapply (local_step_downloads_unless_present_and_not_fresh fresh_system).
  - reflexivity.
  - eexists. vm_compute. reflexivity.
Defined.

(** On that system the remote step ends with a download, although a local
    certificate was there. *)
Example fresh_system_downloads :
  localCertificate fresh_system = true
  ∧ log (setup_remote fresh_system)
    = [AskSetup; CertificatesSetup; SetContext remoteCertContext true;
       DownloadToLocal; SetContext localCertContext true].
Proof. split; vm_compute; reflexivity. Qed.

End DebugFacts.

(** * Properties of the [/connect] handler *)

Module UriHandlerFacts.
Import UriHandler.

Local Open Scope string_scope.

Section Generic.
Variable fromBase64 : string → string.
Variable Number : string → number.

(** What saving does: nothing when a saved connection is named like the
    host; otherwise one entry without password is appended and the password
    is stored under [<host>_password]. *)
Lemma save_connection_spec connectionData host pass w :
  let after := save_connection connectionData host pass w in
  (connections after = connections w ∧ secrets after = secrets w)
  ∨ (∃ existing,
       connections w = Some existing
       ∧ Forall (λ item, name item ≠ host) existing
       ∧ connections after = Some (existing ++ [without_password connectionData])%list
       ∧ secrets after = <[host +:+ "_password" := String_ pass]> (secrets w)).
Proof.
  cbv zeta. unfold save_connection.
  destruct (connections w) as [existing|] eqn:Hexisting; [|by left].
  destruct (find _ existing) as [found|] eqn:Hfind; [by left|].
  right. exists existing. repeat apply conj; try done.
  apply Forall_forall. intros item Hitem Hname.
  apply list_elem_of_In in Hitem.
  pose proof (find_none _ _ Hfind item Hitem) as Hno. cbn in Hno.
  by apply bool_decide_eq_false in Hno.
Qed.

(** Whatever the link and the user's answers, the handler either leaves the
    saved connections and the secrets alone, or appends one entry whose
    password is removed and stores one secret. *)
Lemma handleUri_saves_without_password path queryData w :
  let after := handleUri fromBase64 Number path queryData w in
  (connections after = connections w ∧ secrets after = secrets w)
  ∨ (∃ existing entry key value,
       connections w = Some existing
       ∧ Forall (λ item, name item ≠ host entry) existing
       ∧ connections after = Some (existing ++ [entry])%list
       ∧ password entry = None
       ∧ key = host entry +:+ "_password"
       ∧ secrets after = <[key := value]> (secrets w)).
Proof.
  cbv zeta. unfold handleUri. case_bool_decide; [|by left].
  unfold handleConnect. destruct (connected w); [by left|].
  destruct (negb _); [|by left].
  destruct (if truthy (queryData !! "user") then _ else _) as [user w1] eqn:Huser.
  assert (Hw1 : connections w1 = connections w ∧ secrets w1 = secrets w
                ∧ connectDirect w1 = connectDirect w).
  { destruct (truthy (queryData !! "user")); by injection Huser as <- <-. }
  destruct (if truthy (queryData !! "pass") then _ else _) as [pass w2] eqn:Hpass.
  assert (Hw2 : connections w2 = connections w ∧ secrets w2 = secrets w).
  { destruct Hw1 as (? & ? & _).
    destruct (truthy (queryData !! "pass")); by injection Hpass as <- <-. }
  destruct Hw2 as [Hc2 Hs2].
  destruct (truthy user && truthy pass); [|by left].
  destruct (connectDirect w2 _); [|by left].
  destruct (strict_equal _ _); [|by left].
  match goal with
  | |- context [save_connection ?cd ?h ?p ?w] =>
      destruct (save_connection_spec cd h p w) as [[Hc Hs]|(existing & He & Hf & Hc & Hs)]
  end.
  - left. by rewrite Hc, Hs.
  - right. rewrite Hc2 in He. rewrite Hs2 in Hs.
    match type of Hc with
    | _ = Some (_ ++ [?entry])%list => exists existing, entry
    end.
    eexists _, _.
    split; [exact He|]. split; [exact Hf|]. split; [exact Hc|].
    split; [reflexivity|]. split; [reflexivity|]. exact Hs.
Qed.

End Generic.

(** C10.  The link [/connect?server=myhost&user=bob&save=true], followed
    while a connection named [bob-myhost] is already saved, appends a second
    entry with that very name: the list is searched for the name [myhost],
    the host, not for the name of the new connection, [bob-myhost].  The
    entry has no password; the password is in the secret storage under
    [myhost_password]. *)
Theorem handleUri_appends_connection_of_same_name fromBase64 Number :
  let after := handleUri fromBase64 Number "/connect" link_to_myhost before_link in
  connections before_link = Some [bob_at_myhost]
  ∧ connections after = Some [bob_at_myhost; bob_at_myhost]
  ∧ name bob_at_myhost = "bob-myhost"
  ∧ password bob_at_myhost = None
  ∧ secrets after !! "myhost_password" = Some "secret".
Proof. cbv zeta. repeat apply conj; vm_compute; reflexivity. Qed.

End UriHandlerFacts.

(** * Properties of the check of opened documents *)

Module ColourCheckerFacts.
Import VSCode Colour ColourChecker.

Local Open Scope string_scope.

Lemma scan_suffix (done_ rest : list N) :
  scan (done_ ++ rest) (seq (length done_) (length rest))
  = existsb replaceCharCode rest.
Proof.
  revert done_. induction rest as [|c rest IH]; intros done_; [done|].
  cbn [length seq scan existsb]. unfold charCodeAt.
  rewrite list_lookup_middle by done.
  destruct (replaceCharCode c); [done|]. cbn [orb].
  specialize (IH (done_ ++ [c])%list).
  rewrite length_app, <- app_assoc in IH. cbn in IH.
  by rewrite Nat.add_1_r in IH.
Qed.

Lemma hasInvalidCharacters_existsb content :
  hasInvalidCharacters content = existsb replaceCharCode content.
Proof. apply (scan_suffix [] content). Qed.

Lemma fix_code_fixed c : fix_code c = c ↔ replaceCharCode c = false.
Proof.
  unfold fix_code. destruct (replaceCharCode c) eqn:E; [|done].
  split; [|done]. intros <-. by vm_compute in E.
Qed.

(** X1.  The scan that decides whether the user is bothered finds a
    character exactly when [replaceInvalidCharacters] would change the
    text. *)
Theorem hasInvalidCharacters_iff_fix_changes (content : list N) :
  hasInvalidCharacters content = true
  ↔ replaceInvalidCharacters content ≠ content.
Proof.
  rewrite hasInvalidCharacters_existsb, ColourFacts.replaceInvalidCharacters_fmap.
  induction content as [|c content IH]; [by split|].
  cbn [existsb]. rewrite fmap_cons, orb_true_iff, IH.
  destruct (replaceCharCode c) eqn:E.
  - split; [|by left]. intros _ [= Hc _]. apply fix_code_fixed in Hc. congruence.
  - apply fix_code_fixed in E. rewrite E. split.
    + intros [|Hrest]; [done|]. intros [= Heq]. by apply Hrest.
    + intros Hne. right. intros Heq. apply Hne. by rewrite Heq.
Qed.

Section Listener.
Variable t : string → string.

(** X2.  A document that is not a member, or is closed, or holds no
    character to replace, is left alone: nothing is asked, nothing is
    edited. *)
Theorem listener_ignores_other_documents opened w :
  scheme (TextDocument.uri (document opened)) ≠ "member"
  ∨ TextDocument.isClosed (document opened) = true
  ∨ replaceInvalidCharacters (getText opened) = getText opened →
  onDidOpenTextDocument t opened w = w.
Proof.
  intros Hskip. unfold onDidOpenTextDocument.
  destruct (bool_decide _ && negb _) eqn:Hmember; [|done].
  apply andb_true_iff in Hmember as [Hscheme Hopen].
  apply bool_decide_eq_true in Hscheme. apply negb_true_iff in Hopen.
  destruct Hskip as [?|[?|Hsame]]; [done|congruence|].
  destruct (hasInvalidCharacters (getText opened)) eqn:Hscan; [|done].
  by apply hasInvalidCharacters_iff_fix_changes in Hscan.
Qed.

Lemma shouldInitiateCleanup_auto w :
  config w = Some {| autoFixInvalidCharacters := true |} →
  shouldInitiateCleanup t w = (true, w).
Proof. intros Hc. unfold shouldInitiateCleanup. by rewrite Hc. Qed.

Lemma shouldInitiateCleanup_ask w :
  config w ≠ Some {| autoFixInvalidCharacters := true |} →
  shouldInitiateCleanup t w
  = let asked :=
      showInformationMessage (t "seuColours.warning")
        [t "Yes"; t "Always"; t "No"] w in
    if bool_decide (asked.1 = Some (t "No")) then (false, asked.2)
    else if bool_decide (asked.1 = Some (t "Always"))
            && bool_decide (is_Some (config w))
         then (true, setAutoFix asked.2)
         else (true, asked.2).
Proof.
  intros Hc. unfold shouldInitiateCleanup, showInformationMessage.
  cbv zeta. cbn [fst snd config].
  destruct (config w) as [[[]]|]; [done|reflexivity..].
Qed.

Lemma listener_on_invalid_member opened w :
  scheme (TextDocument.uri (document opened)) = "member" →
  TextDocument.isClosed (document opened) = false →
  hasInvalidCharacters (getText opened) = true →
  onDidOpenTextDocument t opened w
  = let asked := shouldInitiateCleanup t w in
    if asked.1
    then {| config := config asked.2; replies := replies asked.2;
            log := (log asked.2 ++ [the_edit opened])%list |}
    else asked.2.
Proof.
  intros Hscheme Hopen Hscan. unfold onDidOpenTextDocument.
  rewrite Hscheme, Hopen, Hscan. cbn.
  by destruct (shouldInitiateCleanup t w) as [[] w'].
Qed.

(** X3.  For an open member with a character to replace: when the
    configuration has [autoFixInvalidCharacters] on, the text is fixed
    without a question; otherwise the user is asked once, and the text is
    fixed unless the answer is "No" (a dismissed message fixes it too);
    the answer "Always" is stored in the configuration, if there is one. *)
Theorem listener_fixes_unless_refused opened w :
  scheme (TextDocument.uri (document opened)) = "member" →
  TextDocument.isClosed (document opened) = false →
  hasInvalidCharacters (getText opened) = true →
  let after := onDidOpenTextDocument t opened w in
  let question :=
    ShowInformationMessage (t "seuColours.warning") [t "Yes"; t "Always"; t "No"] in
  let chosen := mjoin (head (replies w)) in
  (config w = Some {| autoFixInvalidCharacters := true |} →
     log after = (log w ++ [the_edit opened])%list
     ∧ replies after = replies w ∧ config after = config w)
  ∧ (config w ≠ Some {| autoFixInvalidCharacters := true |} →
     replies after = tail (replies w)
     ∧ (chosen = Some (t "No") →
          log after = (log w ++ [question])%list ∧ config after = config w)
     ∧ (chosen ≠ Some (t "No") →
          (chosen = Some (t "Always") ∧ is_Some (config w) →
             log after
             = (log w ++ [question; SetConfig {| autoFixInvalidCharacters := true |};
                          the_edit opened])%list
             ∧ config after = Some {| autoFixInvalidCharacters := true |})
          ∧ (¬ (chosen = Some (t "Always") ∧ is_Some (config w)) →
             log after = (log w ++ [question; the_edit opened])%list
             ∧ config after = config w))).
Proof.
  intros Hscheme Hopen Hscan after question chosen. subst after.
  rewrite listener_on_invalid_member by done. cbv zeta. split.
  - intros Hon. by rewrite shouldInitiateCleanup_auto.
  - intros Hoff. rewrite shouldInitiateCleanup_ask by done. cbv zeta.
    unfold showInformationMessage. cbn [fst snd]. fold chosen. fold question.
    destruct (bool_decide (chosen = Some (t "No"))) eqn:Hno.
    + apply bool_decide_eq_true in Hno. cbn. split; [done|]. split; [done|].
      intros Hne. done.
    + apply bool_decide_eq_false in Hno.
      destruct (bool_decide (chosen = Some (t "Always"))
                && bool_decide (is_Some (config w))) eqn:Halways.
      * apply andb_true_iff in Halways as [Ha Hc].
        apply bool_decide_eq_true in Ha. apply bool_decide_eq_true in Hc.
        cbn. rewrite <- !app_assoc. split; [done|]. split; [done|].
        intros _. split; [done|]. intros Hnot. by destruct Hnot.
      * cbn. rewrite <- !app_assoc. split; [done|]. split; [done|].
        intros _. split; [|done]. intros [Ha Hc].
        apply andb_false_iff in Halways as [Hf|Hf];
          apply bool_decide_eq_false in Hf; done.
Qed.

(** The answer "Always" is stored when there is a configuration to store
    it in. *)
Lemma shouldInitiateCleanup_after_always w :
  config w ≠ Some {| autoFixInvalidCharacters := true |} →
  mjoin (head (replies w)) = Some (t "Always") →
  t "Always" ≠ t "No" →
  let asked :=
    (showInformationMessage (t "seuColours.warning")
       [t "Yes"; t "Always"; t "No"] w).2 in
  shouldInitiateCleanup t w
  = (true, if bool_decide (is_Some (config w)) then setAutoFix asked else asked).
Proof.
  intros Hoff Hreply Hlabels. rewrite shouldInitiateCleanup_ask by done.
  cbv zeta. unfold showInformationMessage. cbn [fst snd]. rewrite Hreply.
  rewrite bool_decide_eq_false_2 by congruence.
  rewrite bool_decide_eq_true_2 by done. cbn [andb].
  by destruct (bool_decide (is_Some (config w))).
Qed.

(** X4.  The user answers "Always" to the question about one member (the
    labels "Always" and "No" being different texts).  With a configuration
    loaded the answer is stored, and a member opened afterwards is fixed
    without any question.  Without one ([instance.getConfig()] is
    undefined) nothing is stored: the next member is asked about again, and
    fixed unless the answer is "No". *)
Theorem always_is_remembered first second w :
  config w ≠ Some {| autoFixInvalidCharacters := true |} →
  mjoin (head (replies w)) = Some (t "Always") →
  t "Always" ≠ t "No" →
  scheme (TextDocument.uri (document first)) = "member" →
  TextDocument.isClosed (document first) = false →
  hasInvalidCharacters (getText first) = true →
  scheme (TextDocument.uri (document second)) = "member" →
  TextDocument.isClosed (document second) = false →
  hasInvalidCharacters (getText second) = true →
  let between := onDidOpenTextDocument t first w in
  let after := onDidOpenTextDocument t second between in
  let question :=
    ShowInformationMessage (t "seuColours.warning") [t "Yes"; t "Always"; t "No"] in
  (is_Some (config w) →
     log after = (log between ++ [the_edit second])%list
     ∧ replies after = replies between
     ∧ config after = Some {| autoFixInvalidCharacters := true |})
  ∧ (config w = None →
     config between = None ∧ config after = None
     ∧ replies after = tail (replies between)
     ∧ log after
       = (log between
          ++ question
             :: (if bool_decide (mjoin (head (replies between)) = Some (t "No"))
                 then [] else [the_edit second]))%list).
Proof.
  intros Hoff Hreply Hlabels Hs1 Ho1 Hi1 Hs2 Ho2 Hi2 between after question.
  subst after between.
  rewrite (listener_on_invalid_member first) by done.
  rewrite (shouldInitiateCleanup_after_always w) by done.
  cbv zeta. cbn [fst snd]. split.
  - intros Hsome. rewrite bool_decide_eq_true_2 by done.
    rewrite (listener_on_invalid_member second) by done.
    by rewrite shouldInitiateCleanup_auto.
  - intros Hnone. rewrite bool_decide_eq_false_2
      by (rewrite Hnone; by intros [? ?]).
    rewrite (listener_on_invalid_member second) by done.
    rewrite shouldInitiateCleanup_ask by (cbn; by rewrite Hnone).
    cbv zeta. unfold showInformationMessage. cbn [fst snd config replies log].
    rewrite Hnone.
    rewrite (bool_decide_eq_false_2 (is_Some None)) by (by intros [? ?]).
    rewrite andb_false_r. fold question.
    destruct (bool_decide (_ = Some (t "No"))); cbn; rewrite <- ?app_assoc; done.
Qed.

End Listener.

Lemma listener_fixes_unless_refused_witness :
  let opened := opened_member "/LIB/SRC/A.RPGLE" [65; 7; 66]%N in
  let w := {| config := None; replies := []; log := [] |} in
  log (onDidOpenTextDocument id opened w)
  = [ShowInformationMessage "seuColours.warning" ["Yes"; "Always"; "No"];
     ApplyEdit (TextDocument.uri (document opened)) 1 [65; 32; 66]%N].
Proof.
  cbv zeta.
  pose proof (listener_fixes_unless_refused id
                (opened_member "/LIB/SRC/A.RPGLE" [65; 7; 66]%N)
                {| config := None; replies := []; log := [] |}
                eq_refl eq_refl eq_refl) as (_ & Hoff).
  destruct (Hoff ltac:(discriminate)) as (_ & _ & Hyes).
  destruct (Hyes ltac:(discriminate)) as (_ & Hplain).
  destruct Hplain as [Hlog _]; [by intros [[=] _]|]. exact Hlog.
Defined.

Lemma listener_ignores_other_documents_witness :
  let opened := opened_member "/LIB/SRC/A.RPGLE" [65; 10; 66]%N in
  let w := {| config := None; replies := []; log := [] |} in
  onDidOpenTextDocument id opened w = w.
Proof.
  apply (listener_ignores_other_documents id). right. right. reflexivity.
Defined.

(** With a configuration, the second member is fixed at once; without
    one, the user is asked again. *)
Lemma always_is_remembered_witness :
  let first := opened_member "/LIB/SRC/A.RPGLE" [65; 7; 66]%N in
  let second := opened_member "/LIB/SRC/B.RPGLE" [1]%N in
  let question :=
    ShowInformationMessage "seuColours.warning" ["Yes"; "Always"; "No"] in
  let stored := SetConfig {| autoFixInvalidCharacters := true |} in
  let with_config :=
    {| config := Some {| autoFixInvalidCharacters := false |};
       replies := [Some "Always"]; log := [] |} in
  let without_config :=
    {| config := None; replies := [Some "Always"]; log := [] |} in
  log (onDidOpenTextDocument id second
         (onDidOpenTextDocument id first with_config))
  = [question; stored; the_edit first; the_edit second]
  ∧ log (onDidOpenTextDocument id second
           (onDidOpenTextDocument id first without_config))
    = [question; the_edit first; question; the_edit second].
Proof.
  cbv zeta. split.
  - pose proof (always_is_remembered id
                  (opened_member "/LIB/SRC/A.RPGLE" [65; 7; 66]%N)
                  (opened_member "/LIB/SRC/B.RPGLE" [1]%N)
                  {| config := Some {| autoFixInvalidCharacters := false |};
                     replies := [Some "Always"]; log := [] |}
                  ltac:(discriminate) eq_refl ltac:(discriminate)
                  eq_refl eq_refl eq_refl eq_refl eq_refl eq_refl)
      as [Hwith _].
    destruct Hwith as (Hlog & _); [by eexists|]. exact Hlog.
  - pose proof (always_is_remembered id
                  (opened_member "/LIB/SRC/A.RPGLE" [65; 7; 66]%N)
                  (opened_member "/LIB/SRC/B.RPGLE" [1]%N)
                  {| config := None; replies := [Some "Always"]; log := [] |}
                  ltac:(discriminate) eq_refl ltac:(discriminate)
                  eq_refl eq_refl eq_refl eq_refl eq_refl eq_refl)
      as [_ Hwithout].
    destruct Hwithout as (_ & _ & _ & Hlog); [reflexivity|]. exact Hlog.
Defined.

End ColourCheckerFacts.

(** * Properties of the other helpers *)

Module ToolsFacts.
Import VSCode Uris Instantiate Tools.

Local Open Scope string_scope.

(** ** [getGitAPI] *)

(** X5.  The git extension is looked up once: whatever a second lookup
    would yield, the second call answers what the first one answered and
    changes nothing. *)
Theorem getGitAPI_looks_up_once {API} (first second : lookup API) (st : GitState API) :
  getGitAPI second (getGitAPI first st).1 = getGitAPI first st.
Proof.
  unfold getGitAPI. destruct st as [[] api]; cbn; [done|].
  by destruct first.
Qed.

(** ** [withContext] *)

Lemma withContext_balanced {T} context (task : Contexts → Contexts * settled T) st :
  balanced task →
  withContext context task st
  = let ran := task (enter context st) in
    ({| activeContexts := activeContexts st;
        log := (log ran.1
                ++ if activeContexts st !! context is None
                   then [SetContext context None] else [])%list |},
     ran.2).
Proof.
  intros Hbalanced. unfold withContext. cbv zeta.
  pose proof (Hbalanced (enter context st)) as Hmap.
  destruct (task (enter context st)) as [ran result]. cbn [fst snd] in *.
  f_equal. unfold leave. rewrite Hmap. unfold enter.
  destruct (activeContexts st !! context) as [stack|] eqn:Hstack; cbn.
  - rewrite lookup_insert_eq, insert_insert_eq, insert_id by done.
    by rewrite app_nil_r.
  - by rewrite lookup_insert_eq, delete_insert_id.
Qed.

(** X6.  Around a task that leaves the map of active contexts as it found
    it, [withContext] restores the map, whether the task resolves or
    rejects.  When the context was not active it is set before the task and
    unset after it; when it was active already, nothing is shown. *)
Theorem withContext_restores {T} context (task : Contexts → Contexts * settled T) st :
  balanced task →
  let entered := enter context st in
  let after := withContext context task st in
  activeContexts after.1 = activeContexts st
  ∧ after.2 = (task entered).2
  ∧ is_Some (activeContexts entered !! context)
  ∧ (activeContexts st !! context = None →
       log entered = (log st ++ [SetContext context (Some true)])%list
       ∧ log after.1 = (log (task entered).1 ++ [SetContext context None])%list)
  ∧ (is_Some (activeContexts st !! context) →
       log entered = log st ∧ log after.1 = log (task entered).1).
Proof.
  intros Hbalanced entered after. subst after entered.
  rewrite withContext_balanced by done. cbv zeta. cbn [fst snd activeContexts log].
  unfold enter.
  destruct (activeContexts st !! context) as [stack|] eqn:Hstack; cbn [activeContexts log].
  - rewrite lookup_insert_eq, app_nil_r. repeat apply conj; done.
  - rewrite lookup_insert_eq. repeat apply conj; done.
Qed.

Lemma withContext_is_balanced {T} context (task : Contexts → Contexts * settled T) :
  balanced task → balanced (withContext context task).
Proof. intros Hbalanced st. by rewrite withContext_balanced. Qed.

(** X7.  Of two nested calls for a context that was not active, only the
    outer one sets and unsets it: the context is set once before the task,
    stays set when the inner call returns, and is unset once when the outer
    call returns. *)
Theorem withContext_nested {T} context (task : Contexts → Contexts * settled T) st :
  balanced task →
  activeContexts st !! context = None →
  let inside :=
    {| activeContexts := <[context := 1%nat]> (activeContexts st);
       log := (log st ++ [SetContext context (Some true)])%list |} in
  let after := withContext context (withContext context task) st in
  after.2 = (task inside).2
  ∧ activeContexts after.1 = activeContexts st
  ∧ log after.1 = (log (task inside).1 ++ [SetContext context None])%list.
Proof.
  intros Hbalanced Hinactive inside after. subst after.
  rewrite withContext_balanced by by apply withContext_is_balanced.
  cbv zeta. rewrite Hinactive.
  rewrite withContext_balanced by done. cbv zeta. cbn [fst snd activeContexts log].
  assert (Hinside : enter context (enter context st) = inside).
  { unfold enter at 2. rewrite Hinactive. unfold enter. cbn [activeContexts log].
    by rewrite lookup_insert_eq, insert_insert_eq. }
  rewrite Hinside.
  assert (Hentered : activeContexts (enter context st) !! context = Some 0%nat).
  { unfold enter. rewrite Hinactive. cbn. apply lookup_insert_eq. }
  rewrite Hentered, app_nil_r. done.
Qed.

Lemma withContext_restores_witness :
  let st := {| activeContexts := ∅; log := [] |} in
  let entered := enter "code-for-ibmi:busy" st in
  let after := withContext "code-for-ibmi:busy" quiet st in
  activeContexts after.1 = activeContexts st
  ∧ after.2 = (quiet entered).2
  ∧ is_Some (activeContexts entered !! "code-for-ibmi:busy")
  ∧ (activeContexts st !! "code-for-ibmi:busy" = None →
       log entered = (log st ++ [SetContext "code-for-ibmi:busy" (Some true)])%list
       ∧ log after.1
         = (log (quiet entered).1 ++ [SetContext "code-for-ibmi:busy" None])%list)
  ∧ (is_Some (activeContexts st !! "code-for-ibmi:busy") →
       log entered = log st ∧ log after.1 = log (quiet entered).1).
Proof.
  apply (withContext_restores "code-for-ibmi:busy" quiet).
  intros st. reflexivity.
Defined.

Lemma withContext_nested_witness :
  let st := {| activeContexts := ∅; log := [] |} in
  let inside :=
    {| activeContexts := <["code-for-ibmi:busy" := 1%nat]> (activeContexts st);
       log := (log st ++ [SetContext "code-for-ibmi:busy" (Some true)])%list |} in
  let after :=
    withContext "code-for-ibmi:busy" (withContext "code-for-ibmi:busy" quiet) st in
  after.2 = (quiet inside).2
  ∧ activeContexts after.1 = activeContexts st
  ∧ log after.1 = (log (quiet inside).1 ++ [SetContext "code-for-ibmi:busy" None])%list.
Proof.
  apply (withContext_nested "code-for-ibmi:busy" quiet).
  - intros st. reflexivity.
  - reflexivity.
Defined.

(** ** [findExistingDocumentUri] *)

Lemma findExistingDocument_equivalent textDocuments a b :
  uriStringWithoutFragment a = uriStringWithoutFragment b →
  findExistingDocument textDocuments a = findExistingDocument textDocuments b.
Proof. intros Heq. unfold findExistingDocument. by rewrite Heq. Qed.

Lemma findExistingDocumentUri_string textDocuments uri :
  uriStringWithoutFragment (findExistingDocumentUri textDocuments uri)
  = uriStringWithoutFragment uri.
Proof.
  unfold findExistingDocumentUri, findExistingDocument.
  destruct (list_find _ textDocuments) as [[i document]|] eqn:Hfind; [|done].
  by apply list_find_Some in Hfind as (_ & Hdocument & _).
Qed.

Lemma areEquivalentUris_true a b :
  areEquivalentUris a b = true
  ↔ uriStringWithoutFragment a = uriStringWithoutFragment b.
Proof. apply bool_decide_eq_true. Qed.

Lemma areEquivalentUris_false a b :
  areEquivalentUris a b = false
  ↔ uriStringWithoutFragment a ≠ uriStringWithoutFragment b.
Proof. apply bool_decide_eq_false. Qed.

(** The document found is the first of the list that is equivalent to the
    URI. *)
Lemma findExistingDocument_first before document after uri :
  areEquivalentUris (TextDocument.uri document) uri = true →
  (∀ earlier, earlier ∈ before →
     areEquivalentUris (TextDocument.uri earlier) uri = false) →
  findExistingDocument (before ++ document :: after) uri = Some document.
Proof.
  intros Hdocument Hbefore. unfold findExistingDocument.
  assert (Hfind :
            list_find
              (λ d, uriStringWithoutFragment (TextDocument.uri d)
                    = uriStringWithoutFragment uri)
              (before ++ document :: after)
            = Some (length before, document)).
  { apply list_find_Some. split; [by apply list_lookup_middle|].
    split; [by apply areEquivalentUris_true|].
    intros j earlier Hj Hlt. apply areEquivalentUris_false, Hbefore.
    rewrite lookup_app_l in Hj by done.
    by apply list_elem_of_lookup_2 in Hj. }
  by rewrite Hfind.
Qed.

Lemma findExistingDocument_none textDocuments uri :
  (∀ document, document ∈ textDocuments →
     areEquivalentUris (TextDocument.uri document) uri = false) →
  findExistingDocument textDocuments uri = None.
Proof.
  intros Hnone. unfold findExistingDocument.
  assert (Hfind :
            list_find
              (λ d, uriStringWithoutFragment (TextDocument.uri d)
                    = uriStringWithoutFragment uri)
              textDocuments = None).
  { apply list_find_None, Forall_forall. intros document Hin.
    by apply areEquivalentUris_false, Hnone. }
  by rewrite Hfind.
Qed.

Lemma findExistingDocument_some textDocuments uri document :
  document ∈ textDocuments →
  areEquivalentUris (TextDocument.uri document) uri = true →
  is_Some (findExistingDocument textDocuments uri).
Proof.
  intros Hin Hequivalent. unfold findExistingDocument.
  destruct (list_find _ textDocuments) as [found|] eqn:Hfind; [by eexists|].
  apply list_find_None in Hfind. rewrite Forall_forall in Hfind.
  destruct (Hfind document Hin). by apply areEquivalentUris_true.
Qed.

(** X10.  [findExistingDocumentUri] answers with the URI of the first
    document of [workspace.textDocuments] that is equivalent to the URI asked
    for, and with the URI it was given when no document is.  The answer is
    equivalent to the question, asking again with the answer changes
    nothing, and two equivalent URIs get the same answer as soon as a
    document of the list is equivalent to them. *)
Theorem findExistingDocumentUri_canonical textDocuments a b :
  (∀ before document after,
     textDocuments = (before ++ document :: after)%list →
     areEquivalentUris (TextDocument.uri document) a = true →
     (∀ earlier, earlier ∈ before →
        areEquivalentUris (TextDocument.uri earlier) a = false) →
     findExistingDocument textDocuments a = Some document
     ∧ findExistingDocumentUri textDocuments a = TextDocument.uri document)
  ∧ ((∀ document, document ∈ textDocuments →
        areEquivalentUris (TextDocument.uri document) a = false) →
     findExistingDocument textDocuments a = None
     ∧ findExistingDocumentUri textDocuments a = a)
  ∧ areEquivalentUris (findExistingDocumentUri textDocuments a) a = true
  ∧ findExistingDocumentUri textDocuments (findExistingDocumentUri textDocuments a)
    = findExistingDocumentUri textDocuments a
  ∧ (areEquivalentUris a b = true →
     (∃ document, document ∈ textDocuments
                  ∧ areEquivalentUris (TextDocument.uri document) a = true) →
     findExistingDocumentUri textDocuments a
     = findExistingDocumentUri textDocuments b).
Proof.
  repeat apply conj.
  - intros before document after -> Hdocument Hbefore.
    unfold findExistingDocumentUri.
    by rewrite (findExistingDocument_first before document after a).
  - intros Hnone. unfold findExistingDocumentUri.
    by rewrite findExistingDocument_none.
  - apply areEquivalentUris_true, findExistingDocumentUri_string.
  - unfold findExistingDocumentUri at 1 3.
    rewrite (findExistingDocument_equivalent _ _ a)
      by apply findExistingDocumentUri_string.
    destruct (findExistingDocument textDocuments a) as [document|] eqn:Hfound;
      [done|].
    unfold findExistingDocumentUri. by rewrite Hfound.
  - intros Heq%areEquivalentUris_true (document & Hin & Hequivalent).
    destruct (findExistingDocument_some textDocuments a document Hin Hequivalent)
      as [found Hfound].
    unfold findExistingDocumentUri.
    by rewrite <- (findExistingDocument_equivalent _ a b Heq), Hfound.
Qed.

(** Asked for the member in small letters, the answer is the URI of the
    document opened first, in capitals and read-only; asked for a member
    that is not open, it is the URI given. *)
Lemma findExistingDocumentUri_canonical_witness :
  findExistingDocumentUri three_open_documents member_in_small_letters
  = member_in_capitals
  ∧ findExistingDocumentUri three_open_documents (member "/LIB/SRC/A.RPGLE")
    = member "/LIB/SRC/A.RPGLE".
Proof.
  split.
  - destruct (findExistingDocumentUri_canonical three_open_documents
                member_in_small_letters member_in_small_letters)
      as (Hfirst & _).
    destruct (Hfirst [open_document readonly_copy]
                (open_document member_in_capitals)
                [open_document member_in_small_letters]) as [_ Huri].
    + reflexivity.
    + reflexivity.
    + intros earlier Hearlier. apply list_elem_of_singleton in Hearlier as ->.
      reflexivity.
    + exact Huri.
  - destruct (findExistingDocumentUri_canonical three_open_documents
                (member "/LIB/SRC/A.RPGLE") (member "/LIB/SRC/A.RPGLE"))
      as (_ & Hnone & _).
    apply Hnone. intros document Hin. unfold three_open_documents in Hin.
    rewrite !elem_of_cons, elem_of_nil in Hin.
    destruct Hin as [->|[->|[->|[]]]]; reflexivity.
Defined.

(** ** [findUriTabs] *)

Lemma push_all (resourceTabs found : list Tab.t) :
  foldl (λ resourceTabs tab, resourceTabs ++ [tab])%list resourceTabs found
  = (resourceTabs ++ found)%list.
Proof.
  revert resourceTabs. induction found as [|tab found IH]; intros resourceTabs.
  - by rewrite app_nil_r.
  - cbn [foldl]. by rewrite IH, <- app_assoc.
Qed.

Lemma findUriTabs_bind all uriToFind :
  findUriTabs all uriToFind
  = all ≫= λ group, List.filter (tab_matches uriToFind) (tabs group).
Proof.
  unfold findUriTabs.
  assert (G : ∀ resourceTabs,
            foldl (λ resourceTabs group,
                     foldl (λ resourceTabs tab, resourceTabs ++ [tab])%list
                           resourceTabs
                           (List.filter (tab_matches uriToFind) (tabs group)))
                  resourceTabs all
            = (resourceTabs
               ++ (all ≫= λ group,
                     List.filter (tab_matches uriToFind) (tabs group)))%list).
  { induction all as [|group all IH]; intros resourceTabs.
    - by rewrite app_nil_r.
    - cbn [foldl]. rewrite IH, push_all, bind_cons. by rewrite <- app_assoc. }
  by rewrite G.
Qed.

Lemma findUriTabs_elem all uriToFind tab :
  tab ∈ findUriTabs all uriToFind
  ↔ ∃ group, group ∈ all ∧ tab ∈ tabs group ∧ tab_matches uriToFind tab = true.
Proof.
  rewrite findUriTabs_bind, list_elem_of_bind. split.
  - intros (group & Htab & Hgroup). exists group. split; [done|].
    apply list_elem_of_In, filter_In in Htab as [Htab Hmatch].
    split; [by apply list_elem_of_In|done].
  - intros (group & Hgroup & Htab & Hmatch). exists group. split; [|done].
    apply list_elem_of_In, filter_In. split; [by apply list_elem_of_In|done].
Qed.

Lemma two_members_canonical : canonical_tabs (tabGroups two_members).
Proof.
  intros group tab uri Hgroup Htab Hinput.
  apply list_elem_of_singleton in Hgroup as ->.
  simpl in Htab. rewrite !elem_of_cons, elem_of_nil in Htab.
  destruct Htab as [->|[->|[]]]; injection Hinput as <-;
    (split; [reflexivity | simpl; by repeat split]).
Qed.

Lemma two_members_ascii : ascii_tabs (tabGroups two_members).
Proof.
  intros group tab uri Hgroup Htab Hinput.
  apply list_elem_of_singleton in Hgroup as ->.
  simpl in Htab. rewrite !elem_of_cons, elem_of_nil in Htab.
  destruct Htab as [->|[->|[]]]; injection Hinput as <-; by split.
Qed.

(** X8.  In a window whose text tabs have lower-case schemes, with schemes
    and paths made of code units below 128, and for a URI of that kind,
    [findUriTabs] finds exactly the text tabs on the same resource: a tab
    opened read-only, with a fragment, or on a path spelled in another case
    (outside [/QOpenSys/]) is found too; a tab that is not a text editor
    never is. *)
Theorem findUriTabs_finds_same_resource all uriToFind tab :
  ascii_uri uriToFind → ascii_tabs all →
  canonical_scheme (scheme uriToFind) → canonical_tabs all →
  tab ∈ findUriTabs all (ByUri uriToFind)
  ↔ ∃ group uri, group ∈ all ∧ tab ∈ tabs group
                 ∧ Tab.input tab = TabInputText uri
                 ∧ same_resource uri uriToFind.
Proof.
  intros _ _ Hcanonical Htabs. rewrite findUriTabs_elem. split.
  - intros (group & Hgroup & Htab & Hmatch). unfold tab_matches in Hmatch.
    destruct (Tab.input tab) as [uri|] eqn:Hinput; [|done].
    exists group, uri. repeat (split; [done|]).
    apply UrisFacts.areEquivalentUris_iff; [|done..].
    by apply (Htabs group tab).
  - intros (group & uri & Hgroup & Htab & Hinput & Hsame).
    exists group. repeat (split; [done|]). unfold tab_matches. rewrite Hinput.
    apply UrisFacts.areEquivalentUris_iff; [|done..].
    by apply (Htabs group tab).
Qed.

Lemma remoteSchemes_canonical s : s ∈ remoteSchemes → canonical_scheme s.
Proof.
  intros Hs. apply UrisFacts.resource_schemes_canonical.
  unfold remoteSchemes, resource_schemes in *.
  rewrite !elem_of_cons in *. tauto.
Qed.

(** X9.  After [onDisconnected], a tab that [findUriTabs] still finds for a
    member, stream file or object is in a tab group that holds an unsaved
    tab; in a window without unsaved tabs none is left. *)
Theorem remaining_remote_tabs_share_a_dirty_group w uriToFind tab :
  NoDup (tab_ids (tabGroups w)) →
  canonical_tabs (tabGroups w) →
  scheme uriToFind ∈ remoteSchemes →
  tab ∈ findUriTabs (tabGroups (onDisconnected w)) (ByUri uriToFind) →
  ∃ group, group ∈ tabGroups w ∧ has_dirty_tab group = true ∧ tab ∈ tabs group.
Proof.
  intros Hnodup Htabs Hremote Hfound.
  rewrite InstantiateFacts.onDisconnected_tabGroups,
    InstantiateFacts.close_ids_group_after in Hfound by done.
  apply findUriTabs_elem in Hfound as (after & Hafter & Htab & Hmatch).
  apply list_elem_of_fmap in Hafter as (group & -> & Hgroup).
  exists group. split; [done|]. unfold group_after in Htab.
  destruct (has_dirty_tab group) eqn:Hdirty; [done|]. exfalso.
  cbn in Htab. apply list_elem_of_filter in Htab as [Hlocal Htab].
  unfold tab_matches in Hmatch. unfold is_remote_text_tab in Hlocal.
  destruct (Tab.input tab) as [uri|] eqn:Hinput; [|done].
  apply UrisFacts.areEquivalentUris_iff in Hmatch as [Hscheme _].
  - rewrite Hscheme in Hlocal. by apply bool_decide_eq_false in Hlocal.
  - by apply (Htabs group tab).
  - by apply remoteSchemes_canonical.
Qed.

(** The tab of [/LIB/SRC/B.RPGLE] is found for the read-only URI of the
    member spelled in small letters; the tab of the other member is not. *)
Lemma findUriTabs_finds_same_resource_witness :
  let uriToFind :=
    with_decoration (member "/lib/src/b.rpgle")
      EmptyString "readonly=true" EmptyString in
  saved_tab ∈ findUriTabs (tabGroups two_members) (ByUri uriToFind)
  ∧ unsaved_tab ∉ findUriTabs (tabGroups two_members) (ByUri uriToFind).
Proof.
  cbv zeta. split.
  - apply findUriTabs_finds_same_resource.
    + by split.
    + apply two_members_ascii.
    + split; [reflexivity | simpl; by repeat split].
    + apply two_members_canonical.
    + exists {| tabs := [unsaved_tab; saved_tab] |}, (member "/LIB/SRC/B.RPGLE").
      split; [apply list_elem_of_here|].
      split; [apply list_elem_of_further, list_elem_of_here|].
      split; [reflexivity|]. split; reflexivity.
  - intros Hfound. apply findUriTabs_finds_same_resource in Hfound.
    + destruct Hfound as (group & uri & _ & _ & Hinput & _ & Hpath).
      injection Hinput as <-. discriminate Hpath.
    + by split.
    + apply two_members_ascii.
    + split; [reflexivity | simpl; by repeat split].
    + apply two_members_canonical.
Defined.

Lemma remaining_remote_tabs_witness :
  ∃ group, group ∈ tabGroups two_members ∧ has_dirty_tab group = true
           ∧ saved_tab ∈ tabs group.
Proof.
  apply (remaining_remote_tabs_share_a_dirty_group two_members
           (member "/LIB/SRC/B.RPGLE") saved_tab).
  - simpl. repeat constructor; rewrite ?elem_of_cons, ?elem_of_nil; lia.
  - apply two_members_canonical.
  - apply list_elem_of_here.
  - vm_compute. apply list_elem_of_here.
Defined.

Example findUriTabs_ignores_flag_and_case :
  findUriTabs (tabGroups two_members)
    (ByUri (with_decoration (member "/lib/src/b.rpgle")
              EmptyString "readonly=true" EmptyString))
  = [saved_tab].
Proof. reflexivity. Qed.

End ToolsFacts.

(** * Further properties of [ConfigFile] *)

Module ConfigFileMore.
Import ConfigFile MiniJSON ConfigScenarios ConfigWorkspace.

Local Open Scope string_scope.

Section Generic.
Variable JSON_parse : string → option json.

(** X13.  [loadFromServer] reads nothing from a previous load: calling it
    again on the same remote system gives the same object and ends the same
    way. *)
Theorem loadFromServer_twice content this :
  loadFromServer JSON_parse content (loadFromServer JSON_parse content this).1
  = loadFromServer JSON_parse content this.
Proof.
  unfold loadFromServer, parse_server_body.
  destruct this as [[ws srv] bn wf sf data [] merge validator]; cbn; [|done].
  destruct (testStreamFile content sf "r") eqn:Ht;
    [destruct (JSON_parse (downloadStreamfileRaw content sf)) as [v|] eqn:Hp|];
    destruct validator as [validate|]; cbn; rewrite ?Ht, ?Hp; cbn; try done.
  - destruct (validate (Some v)) eqn:Hv; cbn; rewrite ?Ht, ?Hp; cbn;
      rewrite ?Hv; done.
  - destruct (validate None) eqn:Hv; cbn; rewrite ?Ht, ?Hp; cbn;
      rewrite ?Hv; done.
  - destruct (validate None) eqn:Hv; cbn; rewrite ?Ht; cbn;
      rewrite ?Hv; done.
Qed.

(** X14.  When the server file is missing, [loadFromServer] records
    [no_exist] and clears the cached server data (unless the validator
    throws on the missing config); for a config without server copy it does
    nothing at all. *)
Theorem loadFromServer_without_file content this :
  (hasServerFile this = false →
     loadFromServer JSON_parse content this = (this, Returned ()))
  ∧ (hasServerFile this = true →
     testStreamFile content (serverFile this) "r" = false →
     let after := loadFromServer JSON_parse content this in
     server (state after.1) = no_exist
     ∧ workspace (state after.1) = workspace (state this)
     ∧ (rejects_undefined this = false →
          after.2 = Returned () ∧ serverData after.1 = None)
     ∧ (rejects_undefined this = true →
          after.2 = Thrown ValidationError
          ∧ serverData after.1 = serverData this)).
Proof.
  split.
  - intros Hhas. unfold loadFromServer. by rewrite Hhas.
  - intros Hhas Hfile. cbv zeta.
    unfold loadFromServer, rejects_undefined. rewrite Hhas.
    cbn [serverFile set_state_server]. rewrite Hfile.
    cbn [validateAndCleanInPlace set_state_server].
    destruct (validateAndCleanInPlace this) as [validate|]; [|done].
    by destruct (validate None).
Qed.




(** X17.  After a successful load of a truthy document (no validator
    installed), every [get] returns that document, whatever the workspace
    holds, and changes nothing; after [reset] the document is gone, while
    [getState] still reports the server copy as [ok]. *)
Theorem load_get_reset content this document :
  hasServerFile this = true →
  validateAndCleanInPlace this = None →
  testStreamFile content (serverFile this) "r" = true →
  JSON_parse (downloadStreamfileRaw content (serverFile this)) = Some document →
  truthy (Some document) = true →
  let loaded := (loadFromServer JSON_parse content this).1 in
  server (getState loaded) = ok
  ∧ (∀ vscode currentWorkspace,
       get JSON_parse vscode currentWorkspace loaded
       = (loaded, Returned (Some document)))
  ∧ (∀ vscode, get JSON_parse vscode None (reset loaded)
               = (reset loaded, Returned None))
  ∧ server (getState (reset loaded)) = ok.
Proof.
  intros Hhas Hvalidator Hfile Hparse Htruthy loaded.
  assert (Hloaded : loaded = set_serverData (Some document) (set_state_server ok this)).
  { subst loaded. unfold loadFromServer, parse_server_body. rewrite Hhas.
    cbn [serverFile set_state_server]. rewrite Hfile, Hparse.
    cbn [validateAndCleanInPlace set_state_server]. by rewrite Hvalidator. }
  rewrite Hloaded. repeat apply conj; try done.
  - intros vscode currentWorkspace. by rewrite ConfigFileFacts.get_cached.
  - intros vscode. by rewrite ConfigFileFacts.get_without_folder.
Qed.

(** X26.  Called without a workspace folder, or while no folder is open,
    [get] reads the workspace not at all and leaves the object, its load
    state included, exactly as it was. *)
Theorem get_without_workspace_keeps_state vscode currentWorkspace this :
  currentWorkspace = None ∨ workspaceFolders vscode = None →
  (get JSON_parse vscode currentWorkspace this).1 = this
  ∧ (validateAndCleanInPlace this = None →
     (get JSON_parse vscode currentWorkspace this).2
     = Returned (serverData this)).
Proof.
  intros Hnone. unfold get.
  destruct (truthy (serverData this)) eqn:Hcache; [done|].
  assert (Hload : load_workspace JSON_parse vscode currentWorkspace this
                  = (None, this)).
  { unfold load_workspace. destruct Hnone as [->| ->]; [|done].
    by destruct (workspaceFolders vscode). }
  rewrite Hload. cbn [fst snd].
  rewrite ConfigFileFacts.combine_without_cache by done.
  unfold js_or, validate_result. cbn [truthy].
  destruct (serverData this) as [data|] eqn:Hdata; [|done].
  split; [by destruct (validateAndCleanInPlace this) as [v|]; [destruct (v _)|]|].
  by intros ->.
Qed.

End Generic.



Lemma load_get_reset_witness :
  let content := server_with "/etc/.vscode/actions.json" (text_a "1") in
  let loaded := (loadFromServer parseJSON content actions).1 in
  server (getState loaded) = ok
  ∧ (∀ vscode currentWorkspace,
       get parseJSON vscode currentWorkspace loaded
       = (loaded, Returned (Some (doc_a 1))))
  ∧ (∀ vscode, get parseJSON vscode None (reset loaded)
               = (reset loaded, Returned None))
  ∧ server (getState (reset loaded)) = ok.
Proof.
  apply (load_get_reset parseJSON
           (server_with "/etc/.vscode/actions.json" (text_a "1")) actions
           (doc_a 1)); vm_compute; reflexivity.
Defined.

Lemma get_without_workspace_keeps_state_witness :
  let loaded :=
    (loadFromServer parseJSON (server_with "/etc/.vscode/actions.json" "{")
       actions).1 in
  (get parseJSON (vscode_with []) None loaded).1 = loaded
  ∧ (validateAndCleanInPlace loaded = None →
     (get parseJSON (vscode_with []) None loaded).2
     = Returned (serverData loaded)).
Proof.
  apply (get_without_workspace_keeps_state parseJSON (vscode_with []) None).
  by left.
Defined.

End ConfigFileMore.


(** * [ConfigFile.get] across its awaits *)

Module ConfigFileAsyncFacts.
Import ConfigFile MiniJSON ConfigScenarios ConfigFileAsync ConfigInterleavings.

Local Open Scope string_scope.

Lemma falsy_is_no_reference (v : any) : truthy v = false → is_reference v = false.
Proof. by destruct v as [[]|]. Qed.

Section Generic.
Variable JSON_parse : string → option json.

Lemma read_config_file_flag b vscode workspaceConfig this file :
  read_config_file JSON_parse vscode (workspaceConfig, set_mergeArrays b this) file
  = let read := read_config_file JSON_parse vscode (workspaceConfig, this) file in
    (read.1, set_mergeArrays b read.2).
Proof. unfold read_config_file. by destruct (JSON_parse _). Qed.

(** *** A call during which nothing else happens *)

Lemma read_config_files_undisturbed vscode configFiles workspaceConfig this :
  read_config_files JSON_parse (undisturbed vscode) configFiles workspaceConfig this
  = let read := foldl (read_config_file JSON_parse vscode)
                      (workspaceConfig, this) configFiles in
    (read.2, Resolved read.1).
Proof.
  revert workspaceConfig this.
  induction configFiles as [|file configFiles IH]; intros workspaceConfig this;
    [done|].
  cbn [read_config_files foldl undisturbed readFile_rejects during_readFile
         ConfigFileAsync.vscode].
  cbv zeta. rewrite IH.
  by destruct (read_config_file JSON_parse vscode (workspaceConfig, this) file).
Qed.

(** Without other code in between and with reads that succeed, the call
    is the one [ConfigFile.get] describes. *)
Lemma get_undisturbed vscode currentWorkspace this :
  get JSON_parse (undisturbed vscode) currentWorkspace this
  = let answer := ConfigFile.get JSON_parse vscode currentWorkspace this in
    (answer.1, settled_of_outcome answer.2).
Proof.
  unfold get, ConfigFile.get.
  destruct (truthy (serverData this)) eqn:Hcache; [done|].
  pose proof (ConfigFileFacts.load_workspace_serverData
                JSON_parse vscode currentWorkspace this) as Hdata.
  assert (Hload :
            load_workspace JSON_parse (undisturbed vscode) currentWorkspace this
            = let loaded :=
                ConfigFile.load_workspace JSON_parse vscode currentWorkspace this in
              (loaded.2, Resolved loaded.1)).
  { unfold load_workspace, ConfigFile.load_workspace.
    cbn [undisturbed ConfigFileAsync.vscode findFiles_rejects during_findFiles].
    destruct (workspaceFolders vscode), currentWorkspace; try done.
    apply read_config_files_undisturbed. }
  rewrite Hload. cbv zeta.
  destruct (ConfigFile.load_workspace JSON_parse vscode currentWorkspace this)
    as [workspaceConfig loaded]. cbn [fst snd] in *.
  assert (Hfalsy : truthy (serverData loaded) = false) by by rewrite Hdata.
  unfold conclude, validate_result, ConfigFile.validate_result, may_share.
  rewrite (falsy_is_no_reference _ Hfalsy). cbn [andb].
  rewrite ConfigFileFacts.combine_without_cache by done.
  destruct workspaceConfig, (serverData loaded);
    destruct (validateAndCleanInPlace loaded) as [validate|]; cbn; try done;
    by destruct (validate _).
Qed.

(** *** The cached server data during the waits *)

Section Surrounded.
Variable env : Surroundings.

Lemma read_config_files_cache configFiles workspaceConfig this :
  keeps_cache_falsy env →
  truthy (serverData this) = false →
  truthy (serverData
            (read_config_files JSON_parse env configFiles workspaceConfig this).1)
  = false.
Proof.
  intros Hkeeps. revert workspaceConfig this.
  induction configFiles as [|file configFiles IH]; intros workspaceConfig this Hfalsy;
    [done|].
  cbn [read_config_files]. cbv zeta.
  destruct (Hkeeps this Hfalsy) as [_ Hread].
  destruct (readFile_rejects env file); [done|].
  apply IH.
  by rewrite (ConfigFileFacts.read_config_file_serverData JSON_parse
                (vscode env) (workspaceConfig, during_readFile env this) file).
Qed.

Lemma load_workspace_cache currentWorkspace this :
  keeps_cache_falsy env →
  truthy (serverData this) = false →
  truthy (serverData (load_workspace JSON_parse env currentWorkspace this).1)
  = false.
Proof.
  intros Hkeeps Hfalsy. unfold load_workspace.
  destruct (workspaceFolders (vscode env)), currentWorkspace; try done.
  destruct (Hkeeps this Hfalsy) as [Hsearch _].
  destruct (findFiles_rejects env _ _); [done|].
  by apply read_config_files_cache.
Qed.

(** *** The flag *)

Lemma read_config_files_flag b configFiles workspaceConfig this :
  leaves_mergeArrays env →
  read_config_files JSON_parse env configFiles workspaceConfig
    (set_mergeArrays b this)
  = let read :=
      read_config_files JSON_parse env configFiles workspaceConfig this in
    (set_mergeArrays b read.1, read.2).
Proof.
  intros Hleaves. revert workspaceConfig this.
  induction configFiles as [|file configFiles IH]; intros workspaceConfig this;
    [done|].
  cbn [read_config_files]. cbv zeta.
  destruct (Hleaves b this) as [_ ->].
  destruct (readFile_rejects env file); [done|].
  rewrite read_config_file_flag. cbv zeta. cbn [fst snd]. apply IH.
Qed.

Lemma load_workspace_flag b currentWorkspace this :
  leaves_mergeArrays env →
  load_workspace JSON_parse env currentWorkspace (set_mergeArrays b this)
  = let loaded := load_workspace JSON_parse env currentWorkspace this in
    (set_mergeArrays b loaded.1, loaded.2).
Proof.
  intros Hleaves. unfold load_workspace.
  destruct (workspaceFolders (vscode env)), currentWorkspace; try done.
  cbn [workspaceFile set_mergeArrays].
  destruct (Hleaves b this) as [-> _].
  destruct (findFiles_rejects env _ _); [done|].
  apply (read_config_files_flag b _ None
           (set_state_server no_exist (during_findFiles env this)) Hleaves).
Qed.

Lemma conclude_flag b workspaceConfig this :
  truthy (serverData this) = false →
  conclude env workspaceConfig (set_mergeArrays b this)
  = let concluded := conclude env workspaceConfig this in
    (set_mergeArrays b concluded.1, concluded.2).
Proof.
  intros Hfalsy. unfold conclude, validate_result, may_share.
  cbn [serverData validateAndCleanInPlace set_mergeArrays].
  rewrite (falsy_is_no_reference _ Hfalsy). cbn [andb].
  rewrite !ConfigFileFacts.combine_without_cache by done.
  cbn [serverData set_mergeArrays].
  destruct workspaceConfig, (serverData this);
    destruct (validateAndCleanInPlace this) as [validate|]; cbn; try done;
    by destruct (validate _).
Qed.

Lemma get_flag b currentWorkspace this :
  leaves_mergeArrays env → keeps_cache_falsy env →
  get JSON_parse env currentWorkspace (set_mergeArrays b this)
  = let answer := get JSON_parse env currentWorkspace this in
    (set_mergeArrays b answer.1, answer.2).
Proof.
  intros Hleaves Hkeeps. unfold get. cbn [serverData set_mergeArrays].
  destruct (truthy (serverData this)) eqn:Hcache; [done|].
  rewrite load_workspace_flag by done. cbv zeta.
  pose proof (load_workspace_cache currentWorkspace this Hkeeps Hcache) as Hloaded.
  destruct (load_workspace JSON_parse env currentWorkspace this)
    as [loaded [workspaceConfig|r]]; cbn [fst snd] in *; [|done].
  by apply conclude_flag.
Qed.

(** *** The ways to fail *)

Lemma merge_key_Thrown workspaceConfig data acc key e :
  merge_key workspaceConfig data acc key = Thrown e →
  acc = Thrown e ∨ e = TypeError.
Proof.
  unfold merge_key. destruct acc as [resultingConfig|e']; [|intros [= ->]; by left].
  destruct (isArray _ && isArray _); [|done].
  destruct (spread (getProp workspaceConfig key)), (spread (getProp data key));
    try done; intros [= <-]; by right.
Qed.

Lemma merge_keys_Thrown workspaceConfig data keys acc e :
  foldl (merge_key workspaceConfig data) acc keys = Thrown e →
  acc = Thrown e ∨ e = TypeError.
Proof.
  revert acc. induction keys as [|key keys IH]; intros acc; [by left|].
  cbn [foldl]. intros Hthrown. apply IH in Hthrown as [Hstep|]; [|by right].
  by apply merge_key_Thrown in Hstep.
Qed.

Lemma combine_Thrown this workspaceConfig e :
  combine this workspaceConfig = Thrown e →
  e = TypeError ∧ mergeArrays this = true ∧ truthy (serverData this) = true.
Proof.
  unfold combine.
  destruct (mergeArrays this && truthy workspaceConfig && truthy (serverData this))
    eqn:Hmerge; [|done].
  apply andb_true_iff in Hmerge as [Hmerge Hcache].
  apply andb_true_iff in Hmerge as [Hflag _].
  intros Hthrown. apply merge_keys_Thrown in Hthrown as [|]; done.
Qed.

Lemma read_config_files_Rejected configFiles workspaceConfig this r :
  (read_config_files JSON_parse env configFiles workspaceConfig this).2
  = Rejected r →
  r = FileSystemError
  ∧ ∃ file, file ∈ configFiles ∧ readFile_rejects env file = true.
Proof.
  revert workspaceConfig this.
  induction configFiles as [|file configFiles IH]; intros workspaceConfig this;
    [done|].
  cbn [read_config_files]. cbv zeta.
  destruct (readFile_rejects env file) eqn:Hfile.
  - intros [= <-]. split; [done|]. exists file. split; [|done].
    apply list_elem_of_here.
  - intros Hrest. apply IH in Hrest as (-> & file' & Hin & Hfile').
    split; [done|]. exists file'. split; [|done]. by apply list_elem_of_further.
Qed.

Lemma load_workspace_Rejected currentWorkspace this r :
  (load_workspace JSON_parse env currentWorkspace this).2 = Rejected r →
  r = FileSystemError
  ∧ is_Some (workspaceFolders (vscode env))
  ∧ ∃ folder, currentWorkspace = Some folder
      ∧ (findFiles_rejects env folder ("**/" +:+ workspaceFile this) = true
         ∨ ∃ file,
             head (findFiles (vscode env) folder ("**/" +:+ workspaceFile this))
             = Some file
             ∧ readFile_rejects env file = true).
Proof.
  unfold load_workspace.
  destruct (workspaceFolders (vscode env)) as [folders|],
    currentWorkspace as [folder|]; try done.
  destruct (findFiles_rejects env folder _) eqn:Hsearch.
  - intros [= <-]. split; [done|]. split; [by eexists|].
    exists folder. split; [done|]. by left.
  - intros Hread. apply read_config_files_Rejected in Hread
      as (-> & file & Hin & Hfile).
    split; [done|]. split; [by eexists|]. exists folder. split; [done|].
    right. exists file. split; [|done].
    destruct (findFiles (vscode env) folder _) as [|first rest]; cbn in Hin.
    + by apply elem_of_nil in Hin.
    + by apply list_elem_of_singleton in Hin as ->.
Qed.

Lemma validate_result_Rejected workspaceConfig resultingConfig this r :
  (validate_result env workspaceConfig resultingConfig this).2 = Rejected r →
  r = Raised ValidationError
  ∧ is_Some (validateAndCleanInPlace
               (validate_result env workspaceConfig resultingConfig this).1).
Proof.
  unfold validate_result.
  destruct (validateAndCleanInPlace this) as [validate|] eqn:Hvalidator; [|done].
  destruct (validate resultingConfig); [|done].
  cbn. intros [= <-]. split; [done|].
  destruct (may_share workspaceConfig this); cbn; rewrite ?Hvalidator; by eexists.
Qed.

Lemma combined_Rejected workspaceConfig this r :
  let combined :=
    match combine this workspaceConfig with
    | Thrown e => (this, Rejected (Raised e))
    | Returned resultingConfig =>
        validate_result env workspaceConfig resultingConfig this
    end in
  combined.2 = Rejected r →
  (r = Raised ValidationError ∧ is_Some (validateAndCleanInPlace combined.1))
  ∨ (r = Raised TypeError ∧ combined.1 = this ∧ mergeArrays this = true
     ∧ truthy (serverData this) = true).
Proof.
  cbv zeta.
  destruct (combine this workspaceConfig) as [resultingConfig|e] eqn:Hcombine.
  - intros Hrejected. left. by apply validate_result_Rejected.
  - apply combine_Thrown in Hcombine as (-> & Hflag & Hcache).
    cbn. intros [= <-]. by right.
Qed.

Lemma conclude_Rejected workspaceConfig this r :
  (conclude env workspaceConfig this).2 = Rejected r →
  let after := (conclude env workspaceConfig this).1 in
  (r = Raised ValidationError ∧ is_Some (validateAndCleanInPlace after))
  ∨ (r = Raised TypeError ∧ after = this ∧ mergeArrays this = true
     ∧ truthy (serverData this) = true).
Proof.
  pose proof (combined_Rejected workspaceConfig this r) as Hcombined.
  cbv zeta in *. unfold conclude.
  destruct workspaceConfig as [workspaceConfig|];
    destruct (serverData this) as [data|]; try done.
Qed.

End Surrounded.
End Generic.

(** X11.  The [mergeArrays] flag comes into play only when other code fills
    the cached server data while [get] waits for the workspace: in a call
    during which the other code neither touches the flag nor makes the
    cached data truthy (an undisturbed call is such), the promise settles to
    the same value or rejection with the flag as without it, and the object
    is left in the same state.  When a [loadFromServer] of [{"K":[3]}]
    completes during the search of a workspace that holds [{"K":[1,2]}],
    the call resolves to [[1,2,3]] with the flag, and to the workspace
    document without it. *)
Theorem mergeArrays_needs_an_interleaved_load :
  (∀ JSON_parse env b currentWorkspace this,
     leaves_mergeArrays env → keeps_cache_falsy env →
     get JSON_parse env currentWorkspace (set_mergeArrays b this)
     = let answer := get JSON_parse env currentWorkspace this in
       (set_mergeArrays b answer.1, answer.2))
  ∧ (get parseJSON (load_during_search text_K_12 text_K_3) (Some "project")
       (set_mergeArrays true actions)).2
    = Resolved (Some (JArr [JNum 1; JNum 2; JNum 3]))
  ∧ (get parseJSON (load_during_search text_K_12 text_K_3) (Some "project")
       (set_mergeArrays false actions)).2
    = Resolved (Some (doc_K [1; 2]%Z)).
Proof.
  split; [|split; reflexivity].
  intros JSON_parse env b currentWorkspace this. apply get_flag.
Qed.

Lemma undisturbed_leaves_mergeArrays vscode : leaves_mergeArrays (undisturbed vscode).
Proof. by intros b this. Qed.

Lemma undisturbed_keeps_cache_falsy vscode : keeps_cache_falsy (undisturbed vscode).
Proof. by intros this Hfalsy. Qed.

Lemma reset_during_search_leaves_mergeArrays :
  leaves_mergeArrays reset_during_search.
Proof. by intros b this. Qed.

Lemma reset_during_search_keeps_cache_falsy :
  keeps_cache_falsy reset_during_search.
Proof. by intros this Hfalsy. Qed.

(** In a workspace that holds [{"K":[1,2]}], an undisturbed call resolves to
    that document whether the flag is set or not. *)
Lemma mergeArrays_needs_an_interleaved_load_witness :
  let vscode := vscode_with [(".vscode/actions.json", text_K_12)] in
  get parseJSON (undisturbed vscode) (Some "project") (set_mergeArrays true actions)
  = (set_mergeArrays true
       (get parseJSON (undisturbed vscode) (Some "project") actions).1,
     Resolved (Some (doc_K [1; 2]%Z))).
Proof.
  cbv zeta.
  destruct mergeArrays_needs_an_interleaved_load as [Hflag _].
  rewrite (Hflag parseJSON
             (undisturbed (vscode_with [(".vscode/actions.json", text_K_12)]))
             true (Some "project") actions
             (undisturbed_leaves_mergeArrays _)
             (undisturbed_keeps_cache_falsy _)).
  reflexivity.
Defined.

(** X12.  The promise of [get] rejects for three reasons only.  With a
    file-system error, when a folder is searched and [findFiles] rejects, or
    [readFile] rejects for the file found (the read is outside the [try]).
    With the validator's error, a validator being installed.  With the
    TypeError of the spread of line 92, and then [mergeArrays] is set and
    other code has made the cached server data truthy during the wait: a
    call during which the cached data stays falsy never fails that way. *)
Theorem get_rejects_for_three_reasons JSON_parse env currentWorkspace this r :
  (get JSON_parse env currentWorkspace this).2 = Rejected r →
  let after := (get JSON_parse env currentWorkspace this).1 in
  match r with
  | FileSystemError =>
      is_Some (workspaceFolders (vscode env))
      ∧ ∃ folder, currentWorkspace = Some folder
          ∧ (findFiles_rejects env folder ("**/" +:+ workspaceFile this) = true
             ∨ ∃ file,
                 head (findFiles (vscode env) folder
                         ("**/" +:+ workspaceFile this)) = Some file
                 ∧ readFile_rejects env file = true)
  | Raised ValidationError => is_Some (validateAndCleanInPlace after)
  | Raised TypeError =>
      mergeArrays after = true
      ∧ truthy (serverData this) = false
      ∧ truthy (serverData after) = true
      ∧ ¬ keeps_cache_falsy env
  end.
Proof.
  unfold get. destruct (truthy (serverData this)) eqn:Hcache; [done|].
  pose proof (load_workspace_cache JSON_parse env currentWorkspace this) as Hstays.
  pose proof (load_workspace_Rejected JSON_parse env currentWorkspace this)
    as Hfails.
  destruct (load_workspace JSON_parse env currentWorkspace this)
    as [loaded [workspaceConfig|r']]; cbn [fst snd] in *.
  - intros Hrejected.
    apply conclude_Rejected in Hrejected
      as [[-> Hvalidator]|(-> & Hafter & Hflag & Hfilled)]; [done|].
    cbv zeta. rewrite Hafter. repeat (split; [done|]).
    intros Hkeeps. specialize (Hstays Hkeeps Hcache). congruence.
  - intros [= ->]. by destruct (Hfails r eq_refl) as (-> & Hfolders & Hfolder).
Qed.

(** The read of the file found fails: the promise rejects with the
    file-system error.  The workspace holds an array and the validator takes
    objects only: the promise rejects with the validator's error. *)
Lemma get_rejects_for_three_reasons_witness :
  (is_Some (workspaceFolders (vscode reset_during_search))
   ∧ ∃ folder, Some "project" = Some folder
       ∧ (findFiles_rejects reset_during_search folder
            ("**/" +:+ workspaceFile actions) = true
          ∨ ∃ file,
              head (findFiles (vscode reset_during_search) folder
                      ("**/" +:+ workspaceFile actions)) = Some file
              ∧ readFile_rejects reset_during_search file = true))
  ∧ (let env := undisturbed (vscode_with [(".vscode/actions.json", "[1]")]) in
     let this := set_validateAndCleanInPlace (Some objects_only) actions in
     is_Some (validateAndCleanInPlace
                (get parseJSON env (Some "project") this).1)).
Proof.
  split.
  - apply (get_rejects_for_three_reasons parseJSON reset_during_search
             (Some "project") actions FileSystemError).
    reflexivity.
  - apply (get_rejects_for_three_reasons parseJSON
             (undisturbed (vscode_with [(".vscode/actions.json", "[1]")]))
             (Some "project")
             (set_validateAndCleanInPlace (Some objects_only) actions)
             (Raised ValidationError)).
    reflexivity.
Defined.

(** The TypeError is within reach: the workspace holds [[[[7]],5]], and a
    load of [[[[8]],[9]]] completes during the search.  The first turn of
    the loop replaces the accumulator by [[[7],[8]]]; the second finds
    arrays under the key 1 in it and in the server's document, and spreads
    the 5 of the workspace document. *)
Example get_TypeError_after_interleaved_load :
  (get parseJSON (load_during_search "[[[7]],5]" "[[[8]],[9]]") (Some "project")
     (set_mergeArrays true actions)).2
  = Rejected (Raised TypeError).
Proof. reflexivity. Qed.

End ConfigFileAsyncFacts.
(** * Properties of the command [code-for-ibmi.debug.start] *)

Module DebugSessionFacts.
Import Debug DebugSession.

Local Open Scope string_scope.

Lemma debug_start_ready s :
  ready (world s) → debug_start s = note ServerStartup s.
Proof.
  intros ([c Hc] & Hptf & Hremote & Hlocal).
  unfold debug_start, checkRemoteExists, checkLocalExists.
  by rewrite Hc, Hptf, Hremote, Hlocal.
Qed.

(** X18.  [debug.start] starts the debug server exactly when there is a
    connection with the debug service and both the remote and the local
    certificate exist; it then touches nothing else.  In every other case
    the server is not started. *)
Theorem debug_start_needs_both_certificates s :
  (ready (world s) → debug_start s = note ServerStartup s)
  ∧ (¬ ready (world s) → started (debug_start s) = started s
                         ∨ started (debug_start s)
                           = (started s ++ [LocalCertificateMissing])%list).
Proof.
  split; [apply debug_start_ready|].
  unfold ready, debug_start, checkRemoteExists, checkLocalExists.
  - intros Hnot.
    destruct (connection (world s)) as [c|] eqn:Hc; [|by left].
    destruct (debugPTFInstalled (world s)) eqn:Hptf; [|by left].
    destruct (remoteCertificate (world s)) eqn:Hremote; [|by left].
    destruct (localCertificate (world s)) eqn:Hlocal.
    + destruct Hnot. split; [by eexists|done].
    + right. by destruct (clicksSetup (note LocalCertificateMissing s)).
Qed.

Lemma debugPTFInstalled_connection w w' :
  connection w' = connection w → debugPTFInstalled w' = debugPTFInstalled w.
Proof. intros Hsame. unfold debugPTFInstalled. by rewrite Hsame. Qed.

Lemma setup_local_certificates force w c :
  connection w = Some c → debugPTFInstalled w = true → downloadFails w = false →
  let after := setup_local force w in
  connection after = connection w
  ∧ remoteCertificate after = remoteCertificate w
  ∧ localCertificate after = true.
Proof.
  intros Hc Hptf Hdownload. cbv zeta.
  unfold setup_local, checkLocalExists, downloadToLocal. rewrite Hc, Hptf.
  destruct (localCertificate w && negb force) eqn:Hskip.
  - apply andb_true_iff in Hskip as [Hlocal _]. cbn. by rewrite Hc.
  - cbn. rewrite Hdownload. cbn. by rewrite Hc.
Qed.

Lemma setup_remote_fresh w c :
  connection w = Some c → debugPTFInstalled w = true →
  remoteCertificate w = false → continues w = true → setupError w = None →
  downloadFails w = false →
  let after := setup_remote w in
  connection after = Some c
  ∧ remoteCertificate after = true ∧ localCertificate after = true.
Proof.
  intros Hc Hptf Hremote Hcontinue Hsetup Hdownload. cbv zeta.
  unfold setup_remote, checkRemoteExists, certificates_setup.
  rewrite Hc, Hptf, Hremote, Hcontinue. cbn [record setupError]. rewrite Hsetup.
  match goal with
  | |- context [setup_local ?force ?w1] =>
      assert (Hc1 : connection w1 = Some c) by (cbn; exact Hc);
      assert (Hd1 : downloadFails w1 = false) by (cbn; exact Hdownload);
      assert (Hp1 : debugPTFInstalled w1 = true)
        by (rewrite (debugPTFInstalled_connection w); [done | by rewrite Hc1]);
      destruct (setup_local_certificates force w1 c Hc1 Hp1 Hd1)
        as (Hc' & Hr & Hl)
  end.
  rewrite Hc', Hr, Hl. done.
Qed.

(** X19.  On a system with the debug service but without remote
    certificates, when the user agrees to the setup and neither the
    generation nor the download fails, a first [debug.start] sets up both
    certificates without starting the server, and a second one starts
    it. *)
Theorem debug_start_after_setup s c :
  connection (world s) = Some c →
  debugPTFInstalled (world s) = true →
  remoteCertificate (world s) = false →
  continues (world s) = true → setupError (world s) = None →
  downloadFails (world s) = false →
  let first := debug_start s in
  let second := debug_start first in
  started first = started s
  ∧ ready (world first)
  ∧ second = note ServerStartup first.
Proof.
  intros Hc Hptf Hremote Hcontinue Hsetup Hdownload first second.
  assert (Hfirst : started first = started s ∧ ready (world first)).
  { subst first. unfold debug_start, checkRemoteExists.
    rewrite Hc, Hptf, Hremote. cbn [run world started]. split; [done|].
    destruct (setup_remote_fresh (world s) c) as (Hc' & Hr & Hl); try done.
    unfold ready.
    rewrite (debugPTFInstalled_connection (world s)) by by rewrite Hc'.
    rewrite Hc'. by repeat split. }
  destruct Hfirst as [Hstarted Hready]. repeat split; try done; try apply Hready.
  subst second. by apply debug_start_ready.
Qed.

Lemma debug_start_after_setup_witness :
  let first := debug_start fresh_session in
  let second := debug_start first in
  started first = started fresh_session
  ∧ ready (world first)
  ∧ second = note ServerStartup first.
Proof.
  eapply (debug_start_after_setup fresh_session); reflexivity.
Defined.

End DebugSessionFacts.

(** * Properties of the commands [runAction] and [secret] *)

Module CommandsFacts.
Import VSCode Commands.

Local Open Scope string_scope.

(** ** [code-for-ibmi.runAction] *)

(** X20.  With an unsaved document in the active editor and automatic
    saving off, any answer to the question other than "Save" and "Save
    automatically" (so "Cancel", or dismissing it) ends the command: nothing
    is saved, no action is run, the setting is not changed. *)
Theorem runAction_cancelled w document :
  activeDocument w = Some document →
  autoSaveBeforeAction w = false →
  TextDocument.isDirty document = true →
  mjoin (head (replies w)) ≠ Some "Save" →
  mjoin (head (replies w)) ≠ Some "Save automatically" →
  let after := runAction None w in
  log after = (log w ++ [AskSave])%list
  ∧ activeDocument after = activeDocument w
  ∧ autoSaveBeforeAction after = false.
Proof.
  intros Hdocument Hauto Hdirty Hsave Hautomatically. cbv zeta.
  unfold runAction, save_before_run, showWarningMessage.
  rewrite Hdocument, Hauto, Hdirty.
  rewrite !bool_decide_eq_false_2 by done. done.
Qed.

Lemma save_before_run_saved w document :
  saves w = true →
  activeDocument w = Some document →
  let run := save_before_run document w in
  ∃ events,
    log run.2 = (log w ++ events)%list
    ∧ (∀ uri, RunAction uri ∉ events)
    ∧ (run.1 = true →
         TextDocument.isDirty <$> activeDocument run.2 = Some false).
Proof.
  intros Hsaves Hdocument. cbv zeta. unfold save_before_run.
  destruct (autoSaveBeforeAction w) eqn:Hauto.
  - exists [Save]. cbn. rewrite Hdocument, Hsaves.
    split; [done|]. split; [|done].
    intros uri. rewrite elem_of_cons, elem_of_nil. by intros [|].
  - destruct (TextDocument.isDirty document) eqn:Hdirty.
    + unfold showWarningMessage. repeat case_bool_decide; cbn [fst snd].
      * exists [AskSave; Save]. cbn. rewrite Hdocument, Hsaves, <- app_assoc.
        split; [done|]. split; [|done].
        intros uri. rewrite !elem_of_cons, elem_of_nil. by intros [|[|]].
      * exists [AskSave; UpdateConfig; Save]. cbn.
        rewrite Hdocument, Hsaves, <- !app_assoc.
        split; [done|]. split; [|done].
        intros uri. rewrite !elem_of_cons, elem_of_nil. by intros [|[|[|]]].
      * exists [AskSave]. cbn. split; [done|]. split; [|done].
        intros uri. rewrite !elem_of_cons, elem_of_nil. by intros [|].
    + exists []. cbn. rewrite app_nil_r, Hdocument. cbn. rewrite Hdirty.
      split; [done|]. split; [|done]. intros uri. apply not_elem_of_nil.
Qed.

(** X21.  As long as saving succeeds, the command runs an action from the
    editor on saved text only: whenever it runs one, it is for the document
    of the active editor, whose scheme is member, streamfile or file, and
    that document is not dirty any more. *)
Theorem runAction_runs_on_saved_text w document :
  saves w = true →
  activeDocument w = Some document →
  let after := runAction None w in
  ∃ events,
    log after = (log w ++ events)%list
    ∧ ∀ uri, RunAction uri ∈ events →
        uri = TextDocument.uri document
        ∧ scheme uri ∈ actionSchemes
        ∧ TextDocument.isDirty <$> activeDocument after = Some false.
Proof.
  intros Hsaves Hdocument. cbv zeta. unfold runAction. rewrite Hdocument.
  destruct (save_before_run_saved w document Hsaves Hdocument)
    as (events & Hlog & Hnone & Hsaved).
  destruct (save_before_run document w) as [willRun w1]. cbn [fst snd] in *.
  destruct willRun.
  - case_bool_decide as Hscheme.
    + exists (events ++ [RunAction (TextDocument.uri document)])%list.
      cbn. rewrite Hlog, <- app_assoc. split; [done|].
      intros uri [Hin|Hin%list_elem_of_singleton]%elem_of_app.
      * by destruct (Hnone uri).
      * injection Hin as ->. by rewrite Hsaved.
    + exists events. split; [done|]. intros uri Hin. by destruct (Hnone uri).
  - exists events. split; [done|]. intros uri Hin. by destruct (Hnone uri).
Qed.

(** X22.  The answer "Save automatically" is remembered: the setting is
    switched on, and when the command is invoked again nothing is asked,
    the document is just saved. *)
Theorem runAction_save_automatically w document :
  activeDocument w = Some document →
  autoSaveBeforeAction w = false →
  TextDocument.isDirty document = true →
  mjoin (head (replies w)) = Some "Save automatically" →
  let first := runAction None w in
  let second := runAction None first in
  autoSaveBeforeAction first = true
  ∧ ∃ events,
      log second = (log first ++ Save :: events)%list ∧ AskSave ∉ events.
Proof.
  intros Hdocument Hauto Hdirty Hreply first second.
  assert (Hfirst : autoSaveBeforeAction first = true
                   ∧ is_Some (activeDocument first)).
  { subst first. unfold runAction, save_before_run, showWarningMessage.
    rewrite Hdocument, Hauto, Hdirty, Hreply.
    rewrite bool_decide_eq_false_2 by done.
    rewrite bool_decide_eq_true_2 by done.
    case_bool_decide; cbn; eauto. }
  destruct Hfirst as [Hon [saved Hsaved]]. split; [done|].
  subst second. unfold runAction, save_before_run. rewrite Hsaved, Hon.
  case_bool_decide; cbn; rewrite <- ?app_assoc; eexists; split; try reflexivity.
  - rewrite elem_of_cons, elem_of_nil. by intros [|].
  - apply not_elem_of_nil.
Qed.

(** ** [code-for-ibmi.secret] *)

(** X23.  A secret stored for a connection is what a later read with the
    same key resolves to; a read changes nothing; and reading another key
    of the same connection is not affected by the store. *)
Theorem secret_round_trip name key other newValue secrets :
  newValue ≠ EmptyString →
  let stored := secret name key newValue secrets in
  stored.2 = Some newValue
  ∧ secret name key EmptyString stored.1 = (stored.1, Some newValue)
  ∧ (other ≠ key →
       secret name other EmptyString stored.1
       = (stored.1, (secret name other EmptyString secrets).2)).
Proof.
  intros Hvalue. cbv zeta. unfold secret.
  rewrite (bool_decide_eq_false_2 (newValue = EmptyString)) by done.
  rewrite (bool_decide_eq_true_2 (EmptyString = EmptyString)) by done.
  cbn. repeat apply conj; [done| |].
  - by rewrite lookup_insert_eq.
  - intros Hother. rewrite lookup_insert_ne; [done|].
    intros Heq. apply Hother. clear -Heq.
    induction name as [|c name IH]; cbn in Heq.
    + by injection Heq.
    + injection Heq as Heq. by apply IH.
Qed.

Lemma runAction_cancelled_witness :
  let after := runAction None unsaved_editor in
  log after = (log unsaved_editor ++ [AskSave])%list
  ∧ activeDocument after = activeDocument unsaved_editor
  ∧ autoSaveBeforeAction after = false.
Proof.
  eapply (runAction_cancelled unsaved_editor); try reflexivity; discriminate.
Defined.

Lemma runAction_runs_on_saved_text_witness :
  let w := {| activeDocument := activeDocument unsaved_editor;
              autoSaveBeforeAction := false; saves := true;
              replies := [Some "Save"]; log := [] |} in
  let after := runAction None w in
  ∃ events,
    log after = (log w ++ events)%list
    ∧ ∀ uri, RunAction uri ∈ events →
        Some uri = TextDocument.uri <$> activeDocument unsaved_editor
        ∧ scheme uri ∈ actionSchemes
        ∧ TextDocument.isDirty <$> activeDocument after = Some false.
Proof.
  cbv zeta.
  edestruct (runAction_runs_on_saved_text
               {| activeDocument := activeDocument unsaved_editor;
                  autoSaveBeforeAction := false; saves := true;
                  replies := [Some "Save"]; log := [] |})
    as (events & Hlog & Hrun); [reflexivity | reflexivity |].
  exists events. split; [exact Hlog|].
  intros uri Hin. destruct (Hrun uri Hin) as (-> & ? & ?). done.
Defined.

Lemma runAction_save_automatically_witness :
  let w := {| activeDocument := activeDocument unsaved_editor;
              autoSaveBeforeAction := false; saves := true;
              replies := [Some "Save automatically"]; log := [] |} in
  let first := runAction None w in
  let second := runAction None first in
  autoSaveBeforeAction first = true
  ∧ ∃ events,
      log second = (log first ++ Save :: events)%list ∧ AskSave ∉ events.
Proof.
  eapply (runAction_save_automatically
            {| activeDocument := activeDocument unsaved_editor;
               autoSaveBeforeAction := false; saves := true;
               replies := [Some "Save automatically"]; log := [] |});
    reflexivity.
Defined.

Lemma secret_round_trip_witness :
  let stored := secret "dev" "password" "secret" ∅ in
  stored.2 = Some "secret"
  ∧ secret "dev" "password" EmptyString stored.1 = (stored.1, Some "secret")
  ∧ ("token" ≠ "password" →
       secret "dev" "token" EmptyString stored.1
       = (stored.1, (secret "dev" "token" EmptyString ∅).2)).
Proof.
  apply (secret_round_trip "dev" "password" "token" "secret" ∅). discriminate.
Defined.

End CommandsFacts.

(** * Further properties of the [/connect] handler *)

Module UriHandlerMore.
Import Uris UriHandler.

Local Open Scope string_scope.

Lemma split_colon_nonempty s : split_colon s ≠ [].
Proof.
  destruct s as [|c s]; [done|]. cbn [split_colon].
  destruct (Ascii.eqb c ":"); [done|]. by destruct (split_colon s).
Qed.

(** X24.  [server.split(`:`)] loses nothing: the parts, joined with colons,
    are the server text again, and no part holds a colon; so the host is
    free of colons, and a server text without colon is its own host (the
    port then being 22). *)
Theorem split_colon_round_trip s :
  String.concat ":" (split_colon s) = s
  ∧ Forall colon_free (split_colon s)
  ∧ colon_free (default EmptyString (head (split_colon s)))
  ∧ (colon_free s → split_colon s = [s]).
Proof.
  assert (Hjoin : String.concat ":" (split_colon s) = s
                  ∧ Forall colon_free (split_colon s)
                  ∧ (colon_free s → split_colon s = [s])).
  { induction s as [|c s (IHjoin & IHfree & IHsame)]; [by repeat constructor|].
    cbn [split_colon].
    destruct (Ascii.eqb c ":") eqn:Hc.
    - apply Ascii.eqb_eq in Hc as ->. repeat split.
      + pose proof (split_colon_nonempty s).
        destruct (split_colon s) as [|part parts] eqn:Hparts; [done|].
        change (String.concat ":" (EmptyString :: part :: parts))
          with (EmptyString +:+ ":" +:+ String.concat ":" (part :: parts)).
        by rewrite IHjoin.
      + by constructor.
      + by intros [? _].
    - apply Ascii.eqb_neq in Hc.
      pose proof (split_colon_nonempty s).
      destruct (split_colon s) as [|part parts] eqn:Hparts; [done|].
      repeat split.
      + destruct parts as [|next parts].
        * cbn in *. by rewrite IHjoin.
        * change (String.concat ":" (String c part :: next :: parts))
            with (String c (part +:+ ":" +:+ String.concat ":" (next :: parts))).
          change (String.concat ":" (part :: next :: parts))
            with (part +:+ ":" +:+ String.concat ":" (next :: parts)) in IHjoin.
          by rewrite IHjoin.
      + apply Forall_cons in IHfree as [Hpart Hparts']. constructor; [|done].
        by split.
      + intros [_ Hfree]. by injection (IHsame Hfree) as -> ->. }
  destruct Hjoin as (Hjoin & Hfree & Hsame). repeat split; try done.
  pose proof (split_colon_nonempty s).
  destruct (split_colon s) as [|part parts]; [done|].
  by apply Forall_cons in Hfree as [Hpart _].
Qed.

Section Generic.
Variable fromBase64 : string → string.
Variable Number : string → number.

(** X27.  Nothing is persisted unless the link asks for it: when somebody
    is connected already, when the query does not say [save=true], or when
    there is no list of connections to add to, the handler leaves the saved
    connections and the secret storage as they are. *)
Theorem handleUri_persists_only_on_request path queryData w :
  connected w = true
  ∨ strict_equal (queryData !! "save") "true" = false
  ∨ connections w = None →
  let after := handleUri fromBase64 Number path queryData w in
  connections after = connections w ∧ secrets after = secrets w.
Proof.
  intros Hskip. cbv zeta. unfold handleUri. case_bool_decide; [|done].
  unfold handleConnect. destruct (connected w) eqn:Hconnected; [done|].
  destruct (negb _); [|done].
  destruct (if truthy (queryData !! "user") then _ else _) as [user w1] eqn:Huser.
  assert (Hw1 : connections w1 = connections w ∧ secrets w1 = secrets w).
  { destruct (truthy (queryData !! "user")); by injection Huser as <- <-. }
  destruct (if truthy (queryData !! "pass") then _ else _) as [pass w2] eqn:Hpass.
  assert (Hw2 : connections w2 = connections w ∧ secrets w2 = secrets w).
  { destruct Hw1. destruct (truthy (queryData !! "pass"));
      by injection Hpass as <- <-. }
  destruct Hw2 as [Hc2 Hs2].
  destruct (truthy user && truthy pass); [|by cbn].
  destruct (connectDirect w2 _); [|by cbn].
  destruct (strict_equal _ _) eqn:Hsave; [|done].
  destruct Hskip as [?|[?|Hnone]]; [congruence..|].
  assert (Hnone2 : connections w2 = None) by congruence.
  unfold save_connection. rewrite Hnone2. split; congruence.
Qed.

End Generic.

Lemma handleUri_persists_only_on_request_witness :
  let link : gmap string QueryValue :=
    {[ "server" := QString "myhost"; "user" := QString "bob" ]} in
  let after := handleUri id (λ _, NaN) "/connect" link before_link in
  connections after = connections before_link
  ∧ secrets after = secrets before_link.
Proof.
  apply (handleUri_persists_only_on_request id (λ _, NaN)).
  right. left. vm_compute. reflexivity.
Defined.

End UriHandlerMore.

(** * Properties of the command [code-for-ibmi.debug.activeEditor] *)

Module DebugLaunchFacts.
Import VSCode DebugLaunch.

Local Open Scope string_scope.

Lemma upper_char_idemp c : upper_char (upper_char c) = upper_char c.
Proof. by destruct c as [[] [] [] [] [] [] [] []]. Qed.

Lemma toUpperCase_idemp s : toUpperCase (toUpperCase s) = toUpperCase s.
Proof.
  induction s as [|c s IH]; [done|].
  cbn [toUpperCase]. by rewrite upper_char_idemp, IH.
Qed.

Lemma toUpperCase_substring n m s :
  toUpperCase (substring n m s) = substring n m (toUpperCase s).
Proof.
  revert n m. induction s as [|c s IH]; intros [|n] [|m]; cbn; try done;
    by rewrite IH.
Qed.

Section WithPaths.
Variable parserMemberPath : string → string * string.
Variable parsedName : string → string.

(** The object name that is resolved is in upper case. *)
Lemma getObjectFromUri_upper w uri name :
  object (getObjectFromUri parserMemberPath parsedName w uri) = Some name →
  toUpperCase name = name.
Proof.
  unfold getObjectFromUri.
  destruct (connection w), (configuration w); try done.
  match goal with
  | |- context [truthy (object ?q)] => destruct (truthy (object q)) eqn:Htruthy
  end.
  - cbn [object]. intros [= <-].
    destruct (endsWith _ _).
    + by rewrite toUpperCase_substring, toUpperCase_idemp.
    + apply toUpperCase_idemp.
  - intros Hname. rewrite Hname in Htruthy. cbn in Htruthy.
    apply negb_false_iff, bool_decide_eq_true in Htruthy. by subst.
Qed.

Lemma getObjectFromUri_resolves w uri name :
  object (getObjectFromUri parserMemberPath parsedName w uri) = Some name →
  is_Some (connection w) ∧ is_Some (configuration w)
  ∧ scheme uri ∈ debugSchemes.
Proof.
  unfold getObjectFromUri, debugSchemes.
  destruct (connection w), (configuration w); try done.
  intros Hname. repeat split; try by eexists.
  rewrite !elem_of_cons.
  repeat case_bool_decide; cbn in *; try tauto.
  all: try (right; tauto).
  cbn in Hname. done.
Qed.

(** X25.  [debug.activeEditor] starts at most one debug session, and only
    for a member, a stream file or a local file, with a configuration
    loaded and a password that is not empty; the program it names is not
    empty and in upper case, the port is 8005 and the certificate checks
    are off. *)
Theorem debug_activeEditor_launch w :
  let after := debug_activeEditor parserMemberPath parsedName w in
  launched after = launched w
  ∨ ∃ uri config,
      activeEditor w = Some uri
      ∧ scheme uri ∈ debugSchemes
      ∧ is_Some (connection w) ∧ is_Some (configuration w)
      ∧ launched after = (launched w ++ [config])%list
      ∧ password config ≠ EmptyString
      ∧ program config ≠ EmptyString
      ∧ toUpperCase (program config) = program config
      ∧ port config = "8005"
      ∧ secure config = false ∧ ignoreCertificateErrors config = true.
Proof.
  cbv zeta. unfold debug_activeEditor.
  destruct (activeEditor w) as [uri|] eqn:Heditor; [|by left].
  destruct (connection w) as [c|] eqn:Hc; [|by left].
  destruct (getPassword c w) as [typed w1] eqn:Hpassword.
  assert (Hlaunched : launched w1 = launched w).
  { unfold getPassword in Hpassword.
    destruct (truthy (secrets w !! _)); by injection Hpassword as <- <-. }
  destruct (truthy typed && _ && _) eqn:Hall; [|by left].
  apply andb_true_iff in Hall as [[Hp Hl]%andb_true_iff Ho].
  right.
  destruct (object (getObjectFromUri parserMemberPath parsedName w uri))
    as [name|] eqn:Hname; [|done].
  destruct (getObjectFromUri_resolves w uri name Hname) as (_ & Hconfig & Hscheme).
  pose proof (getObjectFromUri_upper w uri name Hname) as Hupper.
  eexists uri, _. cbn [launched startDebug]. rewrite Hlaunched.
  repeat (split; [done || by eexists|]).
  cbn [launchConfig password program port secure ignoreCertificateErrors
       opt_password opt_object default negb].
  destruct typed as [p|]; [|done]. cbn in Hp, Ho |- *.
  apply negb_true_iff, bool_decide_eq_false in Hp.
  apply negb_true_iff, bool_decide_eq_false in Ho.
  rewrite Hupper. repeat split; done.
Qed.

End WithPaths.

End DebugLaunchFacts.

